(** * EcoSim local server: universe store

    A shallow embedding of [ecosystem/server.py]: the name/filename
    transforms, the four file-backed operations on the saves directory and
    the HTTP verb handlers that dispatch to them, followed by the properties
    the specification states about them.

    Python [str] values are sequences of Unicode code points and are modelled
    as [list N].  The parts of the Python runtime and of the deployment that
    the server relies on but does not itself contain (the Unicode tables
    beyond ASCII, [urllib.parse.unquote], [json.loads], the directory of the
    script) are the fields of the class [PyRuntime].

    The file system is a finite map from POSIX paths to entries.  An entry is
    a regular text file, kept as the text its bytes decode to, or a name on
    which [os.stat] fails.  Files are read the way [open(path, 'r')] reads
    them, with universal newlines; [os.linesep] is ["\n"], so writing stores
    the text as given.  Whether a write goes through, and where it lands when
    the path is a symbolic link, is decided by the operating system and is an
    input of the save operation.  Directories inside the saves directory and
    files that do not decode are not states of this model.

    A handler is modelled in two steps.  [do_GET], [do_POST] and [do_DELETE]
    take the path component of the request target (and the body, already
    decoded) and give the sending call the handler ends with; [deliver] then
    runs that call through the logging hook [log_message], which decides
    whether anything reaches the client. *)

From Stdlib Require Import ZArith NArith List Lia.
From Stdlib Require Import Strings.String Strings.Ascii.
From stdpp Require Import gmap list sorting.

Set Default Proof Using "Type".
Set Warnings "-register-all".
Open Scope N_scope.

(* ===================================================================== *)
(** ** Python values                                                      *)
(* ===================================================================== *)

(** A Python [str]: its code points, in order. *)
Abbreviation str := (list N).

(** The code points of an ASCII literal. *)
Definition u (s : string) : str := N_of_ascii <$> list_ascii_of_string s.

(** The values [json.load] produces and [json.dumps] consumes.  A [dict] is
    kept as its items in insertion order; a float is kept as its literal. *)
Inductive pyval :=
| PNone
| PBool (b : bool)
| PInt (z : Z)
| PFloat (literal : str)
| PStr (s : str)
| PList (items : list pyval)
| PDict (items : list (str * pyval)).

(** What the server takes from its environment. *)
Class PyRuntime := {
  (** [str.isalnum] on a code point above U+007F *)
  uni_isalnum : N → bool;
  (** [str.isspace] on a code point above U+007F *)
  uni_isspace : N → bool;
  (** [urllib.parse.unquote] *)
  unquote : str → str;
  (** [json.loads]; [None] when it raises *)
  json_loads : str → option pyval;
  (** [os.path.dirname(os.path.abspath(__file__))] *)
  script_dir : str;
}.

(* ===================================================================== *)
(** ** String primitives that do not depend on the runtime                *)
(* ===================================================================== *)

Fixpoint take_while (p : N → bool) (s : str) : str :=
  match s with
  | c :: s' => if p c then c :: take_while p s' else []
  | [] => []
  end.

Fixpoint drop_while (p : N → bool) (s : str) : str :=
  match s with
  | c :: s' => if p c then drop_while p s' else s
  | [] => []
  end.

(** [s.startswith(prefix)] *)
Fixpoint startswith (s prefix : str) {struct prefix} : bool :=
  match prefix, s with
  | [], _ => true
  | p :: prefix', c :: s' => (c =? p) && startswith s' prefix'
  | _ :: _, [] => false
  end.

(** [s.endswith(suffix)] *)
Definition endswith (s suffix : str) : bool :=
  startswith (rev s) (rev suffix).

(** [s.replace(old, new)] for a non-empty [old]: the occurrences of [old] are
    found left to right and do not overlap.  [skip] counts the characters of
    the occurrence just replaced that are still to be passed over. *)
Fixpoint replace_from (old new : str) (skip : nat) (s : str) : str :=
  match s with
  | [] => []
  | c :: s' =>
      match skip with
      | S k => replace_from old new k s'
      | O => if startswith s old
             then new ++ replace_from old new (length old - 1) s'
             else c :: replace_from old new 0 s'
      end
  end.

Definition str_replace (s old new : str) : str := replace_from old new 0 s.

(** [s[i:j]] for [0 <= i] and [0 <= j] *)
Definition slice (s : str) (i j : nat) : str := take (j - i) (drop i s).

(** Text files are opened with the default [newline=None].  On reading,
    universal newlines are in force: ["\r\n"] and a lone ["\r"] both come
    back as ["\n"]. *)
Fixpoint universal_newlines (s : str) : str :=
  match s with
  | [] => []
  | c :: s' =>
      if c =? 13
      then 10 :: match s' with
                 | d :: s'' =>
                     if d =? 10 then universal_newlines s''
                     else universal_newlines s'
                 | [] => []
                 end
      else c :: universal_newlines s'
  end.

(** [posixpath.join(a, b)] *)
Definition os_path_join (a b : str) : str :=
  if startswith b (u "/") then b
  else if bool_decide (a = []) || endswith a (u "/") then a ++ b
  else a ++ u "/" ++ b.

(** Comparison of two [str] values: code point by code point, a proper
    prefix first. *)
Fixpoint str_leb (a b : str) : bool :=
  match a, b with
  | [], _ => true
  | _ :: _, [] => false
  | x :: a', y :: b' =>
      if x <? y then true else if y <? x then false else str_leb a' b'
  end.

Definition str_le (a b : str) : Prop := str_leb a b = true.

#[global] Instance str_le_dec : RelDecision str_le :=
  fun a b => decide (str_leb a b = true).

(** [sorted(l)] on a list of [str] *)
Definition sorted (l : list str) : list str := merge_sort str_le l.

(** [d.get(key, dflt)]; [None] stands for the [AttributeError] raised
    when [d] is not a [dict]. *)
Fixpoint assoc (key : str) (items : list (str * pyval)) : option pyval :=
  match items with
  | [] => None
  | (k, v) :: rest => if bool_decide (k = key) then Some v else assoc key rest
  end.

Definition dict_get (d : pyval) (key : str) (dflt : pyval) : option pyval :=
  match d with
  | PDict items => Some (default dflt (assoc key items))
  | _ => None
  end.

(** [len(v)]; [None] stands for the [TypeError] raised on a value that has
    no length. *)
Definition py_len (v : pyval) : option nat :=
  match v with
  | PStr s => Some (length s)
  | PList items => Some (length items)
  | PDict items => Some (length items)
  | _ => None
  end.

(* ===================================================================== *)
(** ** The file system                                                    *)
(* ===================================================================== *)

(** What [list_universes] reads of [os.stat]: [saved_at_ms] is
    [int(st.st_mtime * 1000)]. *)
Record stat_result := { saved_at_ms : Z; st_size : Z }.

(** A directory entry: a regular text file with its decoded content, or a
    name that [os.listdir] reports but [os.stat] fails on (a symbolic link
    whose target is missing). *)
Inductive node :=
| Reg (content : str) (st : stat_result)
| Dangling.

(** The files, by POSIX path. *)
Abbreviation world := (gmap (list N) node).

(** [os.path.exists(p)]: whether [os.stat(p)] succeeds. *)
Definition os_stat (w : world) (p : str) : option stat_result :=
  match w !! p with
  | Some (Reg _ st) => Some st
  | _ => None
  end.

Definition os_path_exists (w : world) (p : str) : bool :=
  bool_decide (is_Some (os_stat w p)).

(** [with open(p, 'r') as f: f.read()]; [None] when [open] raises. *)
Definition read_text (w : world) (p : str) : option str :=
  match w !! p with
  | Some (Reg content _) => Some (universal_newlines content)
  | _ => None
  end.

(** [os.remove(p)] *)
Definition os_remove (w : world) (p : str) : world := delete p w.

(** What the operating system does with one
    [with open(p, 'w') as f: f.write(data)].  The first three outcomes are
    those of a path that is a regular file or is absent.  [Through] is the
    outcome on a symbolic link whose target is missing: [open] follows the
    link, and what happens next happens at the target. *)
Inductive write_outcome :=
| Written (st : stat_result)             (* the file now holds the text *)
| OpenRaises                             (* nothing was touched *)
| WriteRaises (partial : str) (st : stat_result)
                                         (* truncated, [partial] got through *)
| Through (target : str) (io : write_outcome).
                                         (* followed a link to [target] *)

(** The write itself; the boolean tells whether it completed without an
    exception.  [os.linesep] is ["\n"], so the text is stored as given.
    After a write through a link the link names whatever file is now at its
    target; the content is recorded under both paths. *)
Fixpoint write_text (io : write_outcome) (w : world) (p data : str)
  : bool * world :=
  match io with
  | Written st => (true, <[p := Reg data st]> w)
  | OpenRaises => (false, w)
  | WriteRaises partial st => (false, <[p := Reg partial st]> w)
  | Through target io' =>
      let '(ok, w') := write_text io' w target data in
      (ok, match w' !! target with
           | Some n => <[p := n]> w'
           | None => w'
           end)
  end.


(** The name of [p] inside directory [d], when [p] lies directly in [d]. *)
Definition child_name (d p : str) : option str :=
  if startswith p (d ++ u "/")
  then let n := drop (length d + 1) p in
       if bool_decide (n ≠ []) && bool_decide (47 ∉ n) then Some n else None
  else None.

(** [os.listdir(d)], in the order the file system happens to give. *)
Definition os_listdir (w : world) (d : str) : list str :=
  omap (child_name d) (map_to_list w).*1.

(** The sending call a handler ends with.  [SendError code message] is the
    call [self.send_error(code, message)], not yet an answer: what comes of
    each call is [deliver], further down. *)
Inductive response :=
| Raw200 (body : str)                    (* 200, the text as UTF-8 *)
| Json200 (payload : pyval)              (* send_json(payload) *)
| SendError (code : Z) (message : option str)
| StaticGet.                             (* SimpleHTTPRequestHandler.do_GET *)

(** ASCII rows of CPython's character tables. *)
Definition ascii_isspace (c : N) : bool :=
  ((9 <=? c) && (c <=? 13)) || ((28 <=? c) && (c <=? 31)) || (c =? 32).

Definition ascii_isalnum (c : N) : bool :=
  ((48 <=? c) && (c <=? 57)) || ((65 <=? c) && (c <=? 90))
  || ((97 <=? c) && (c <=? 122)).

(** The patterns of [re] the server uses: a negated set of class items, and
    one or more repetitions of a class item. *)
Inductive class_item :=
| Word               (* \w *)
| Space              (* \s *)
| Lit (c : N).

Inductive pattern :=
| NegSet (items : list class_item)     (* [^...] *)
| Plus (item : class_item).            (* x+ *)

Section Server.
Context `{PyRuntime}.

(* ===================================================================== *)
(** ** Character classes, [re.sub], [str.strip]                           *)
(* ===================================================================== *)

(** [Py_UNICODE_ISSPACE] *)
Definition is_space (c : N) : bool :=
  if c <? 128 then ascii_isspace c else uni_isspace c.

(** [Py_UNICODE_ISALNUM] *)
Definition is_alnum (c : N) : bool :=
  if c <? 128 then ascii_isalnum c else uni_isalnum c.

(** [\w] on a [str] pattern: alphanumeric or underscore *)
Definition is_word (c : N) : bool := is_alnum c || (c =? 95).

Definition item_matches (i : class_item) (c : N) : bool :=
  match i with
  | Word => is_word c
  | Space => is_space c
  | Lit d => c =? d
  end.

(** Length of the match of the pattern at the start of [s], if any.  A set
    matches one character; [x+] is greedy. *)
Definition match_at (p : pattern) (s : str) : option nat :=
  match p, s with
  | _, [] => None
  | NegSet items, c :: _ =>
      if existsb (fun i => item_matches i c) items then None else Some 1%nat
  | Plus i, c :: _ =>
      if item_matches i c
      then Some (length (take_while (item_matches i) s))
      else None
  end.

(** [re.sub(p, repl, s)] for a literal replacement: scan left to right; where
    the pattern matches, emit [repl] and resume after the match; elsewhere
    copy the character. *)
Fixpoint sub_from (p : pattern) (repl : str) (skip : nat) (s : str) : str :=
  match s with
  | [] => []
  | c :: s' =>
      match skip with
      | S k => sub_from p repl k s'
      | O => match match_at p s with
             | Some (S k) => repl ++ sub_from p repl k s'
             | _ => c :: sub_from p repl 0 s'
             end
      end
  end.

Definition re_sub (p : pattern) (repl s : str) : str := sub_from p repl 0 s.

(** [s.strip()]: [i] is the first index that holds no whitespace, [j] is one
    past the last such index, the result is [s[i:j]]. *)
Definition strip (s : str) : str :=
  let i := length (take_while is_space s) in
  let j := (length s - length (take_while is_space (rev s)))%nat in
  slice s i j.

(* ===================================================================== *)
(** ** Name <-> filename                                                  *)
(* ===================================================================== *)

(** [[
def safe_filename(name):
    safe = re.sub(r'[^\w\s-]', '', name).strip()
    safe = re.sub(r'\s+', '_', safe)
    return safe + '.json' if safe else None
]] *)
Definition safe_filename (name : str) : option str :=
  let safe := strip (re_sub (NegSet [Word; Space; Lit 45]) [] name) in
  let safe := re_sub (Plus Space) (u "_") safe in
  match safe with
  | [] => None
  | _ :: _ => Some (safe ++ u ".json")
  end.

(** [[
def name_from_filename(filename):
    name = filename.replace('.json', '').replace('_', ' ')
    return name
]] *)
Definition name_from_filename (filename : str) : str :=
  str_replace (str_replace filename (u ".json") []) (u "_") (u " ").

(* ===================================================================== *)
(** ** The operations on the saves directory                              *)
(* ===================================================================== *)

(** [SAVES_DIR = os.path.join(os.path.dirname(os.path.abspath(__file__)), 'saves')] *)
Definition SAVES_DIR : str := os_path_join script_dir (u "saves").

(** The body of the [try] in [list_universes] for one file name; [None]
    when any step raises. *)
Definition universe_summary (w : world) (f : str) : option pyval :=
  let filepath := os_path_join SAVES_DIR f in
  st ← os_stat w filepath;
  text ← read_text w filepath;
  data ← json_loads text;
  tick ← dict_get data (u "tick") (PInt 0);
  generation ← dict_get data (u "maxGeneration") (PInt 0);
  creatures ← dict_get data (u "creatures") (PList []);
  population ← py_len creatures;
  Some (PDict [ (u "name", PStr (name_from_filename f));
                (u "filename", PStr f);
                (u "tick", tick);
                (u "generation", generation);
                (u "population", PInt (Z.of_nat population));
                (u "savedAt", PInt (saved_at_ms st));
                (u "fileSize", PInt (st_size st)) ]).

(** [[
def list_universes(self):
    universes = []
    if not os.path.exists(SAVES_DIR):
        return universes
    for f in sorted(os.listdir(SAVES_DIR)):
        if not f.endswith('.json'):
            continue
        filepath = os.path.join(SAVES_DIR, f)
        try:
            stat = os.stat(filepath)
            with open(filepath, 'r') as fh:
                data = json.load(fh)
            universes.append({...})
        except Exception:
            continue
    return universes
]]
    A directory that is missing has no entries, and the loop over no names
    gives the same empty list as the early return.  [summaries] is the
    [for] loop. *)
Fixpoint summaries (w : world) (files : list str) : list pyval :=
  match files with
  | [] => []
  | f :: rest =>
      if negb (endswith f (u ".json")) then summaries w rest
      else match universe_summary w f with
           | Some entry => entry :: summaries w rest
           | None => summaries w rest
           end
  end.

Definition list_universes (w : world) : list pyval :=
  summaries w (sorted (os_listdir w SAVES_DIR)).

(** [[
def load_universe(self, name):
    filename = safe_filename(name)
    if not filename:
        return None
    filepath = os.path.join(SAVES_DIR, filename)
    if not os.path.exists(filepath):
        return None
    with open(filepath, 'r') as f:
        return f.read()
]] *)
Definition load_universe (w : world) (name : str) : option str :=
  match safe_filename name with
  | None => None
  | Some filename =>
      let filepath := os_path_join SAVES_DIR filename in
      if negb (os_path_exists w filepath) then None
      else read_text w filepath
  end.

(** [[
def save_universe(self, name, data):
    filename = safe_filename(name)
    if not filename:
        return False
    filepath = os.path.join(SAVES_DIR, filename)
    try:
        with open(filepath, 'w') as f:
            f.write(data)
        return True
    except Exception as e:
        print(f'Save error: {e}')
        return False
]]
    The message printed on failure is not part of the model. *)
Definition save_universe (io : write_outcome) (w : world) (name data : str)
  : bool * world :=
  match safe_filename name with
  | None => (false, w)
  | Some filename =>
      let filepath := os_path_join SAVES_DIR filename in
      write_text io w filepath data
  end.

(** [[
def delete_universe(self, name):
    filename = safe_filename(name)
    if not filename:
        return False
    filepath = os.path.join(SAVES_DIR, filename)
    if os.path.exists(filepath):
        os.remove(filepath)
        return True
    return False
]] *)
Definition delete_universe (w : world) (name : str) : bool * world :=
  match safe_filename name with
  | None => (false, w)
  | Some filename =>
      let filepath := os_path_join SAVES_DIR filename in
      if os_path_exists w filepath then (true, os_remove w filepath)
      else (false, w)
  end.

(* ===================================================================== *)
(** ** The handlers                                                       *)
(* ===================================================================== *)

(** In each handler [path] is [urllib.parse.urlparse(self.path).path].  For
    [do_POST], [body] is [self.rfile.read(content_length).decode('utf-8')]:
    a request whose [Content-Length] is no integer or whose body is no
    UTF-8 raises before [save_universe] is reached and is not an input
    here.  The result is the sending call the handler ends with; see
    [deliver] for what becomes of it. *)

Definition api_prefix : str := u "/api/universes/".

Definition requested_name (path : str) : str :=
  unquote (drop (length api_prefix) path).

Definition do_GET (w : world) (path : str) : response :=
  if bool_decide (path = u "/api/universes")
  then Json200 (PList (list_universes w))
  else if startswith path api_prefix
  then match load_universe w (requested_name path) with
       | Some data => Raw200 data
       | None => SendError 404 (Some (u "Universe not found"))
       end
  else StaticGet.

Definition do_POST (io : write_outcome) (w : world) (path body : str)
  : response * world :=
  if startswith path api_prefix
  then let name := requested_name path in
       let '(ok, w') := save_universe io w name body in
       if ok
       then (Json200 (PDict [(u "ok", PBool true); (u "name", PStr name)]), w')
       else (SendError 400 (Some (u "Failed to save")), w')
  else (SendError 404 None, w).

Definition do_DELETE (w : world) (path : str) : response * world :=
  if startswith path api_prefix
  then let '(ok, w') := delete_universe w (requested_name path) in
       if ok
       then (Json200 (PDict [(u "ok", PBool true)]), w')
       else (SendError 404 (Some (u "Universe not found")), w')
  else (SendError 404 None, w).

End Server.

(* ===================================================================== *)
(** ** The transforms as the specification words them                     *)
(* ===================================================================== *)

Section Reference.
Context `{PyRuntime}.

(** Alphanumeric, underscore, whitespace or hyphen. *)
Definition allowed (c : N) : bool :=
  is_alnum c || (c =? 95) || is_space c || (c =? 45).

(** Leading and trailing whitespace removed. *)
Definition trim (s : str) : str :=
  rev (drop_while is_space (rev (drop_while is_space s))).

(** The pieces of [s] between whitespace characters (some may be empty). *)
Fixpoint split_spaces (s : str) : list str :=
  match s with
  | [] => [[]]
  | c :: s' =>
      if is_space c then [] :: split_spaces s'
      else match split_spaces s' with
           | w :: ws => (c :: w) :: ws
           | [] => [[c]]
           end
  end.

(** The maximal whitespace-free pieces of [s], in order. *)
Definition words (s : str) : list str :=
  filter (fun w => w ≠ []) (split_spaces s).

Fixpoint join (sep : str) (ws : list str) : str :=
  match ws with
  | [] => []
  | w :: ws' =>
      match ws' with
      | [] => w
      | _ :: _ => w ++ sep ++ join sep ws'
      end
  end.

(** In a string with no whitespace at either end every whitespace run is
    internal; with each run turned into one underscore the string is its
    words joined by underscores. *)
Definition collapse (s : str) : str := join (u "_") (words s).

(** The part of the filename before the extension. *)
Definition spec_stem (name : str) : str :=
  collapse (trim (filter (fun c => allowed c = true) name)).

Definition spec_filename (name : str) : option str :=
  if bool_decide (spec_stem name = []) then None
  else Some (spec_stem name ++ u ".json").

(** No whitespace at the start, at the end. *)
Definition no_lead (s : str) : bool :=
  match s with
  | c :: _ => negb (is_space c)
  | [] => true
  end.

Fixpoint no_trail (s : str) : bool :=
  match s with
  | [] => true
  | c :: s' =>
      match s' with
      | [] => negb (is_space c)
      | _ :: _ => no_trail s'
      end
  end.

(** The characters a sanitized name is made of. *)
Definition stem_char (c : N) : Prop := is_word c = true ∨ c = 45.

End Reference.

(** The [.json] suffix dropped (if there), every underscore made a space. *)
Definition drop_suffix (s suffix : str) : str :=
  if endswith s suffix then take (length s - length suffix) s else s.

Definition spec_name_from_filename (filename : str) : str :=
  (fun c => if c =? 95 then 32 else c) <$> drop_suffix filename (u ".json").

(** Letters, digits, spaces and hyphens. *)
Definition plain `{PyRuntime} (c : N) : bool :=
  is_alnum c || (c =? 32) || (c =? 45).


(** The names the loop of [list_universes] produces an entry for. *)
Definition summarized `{PyRuntime} (w : world) (f : str) : Prop :=
  endswith f (u ".json") = true ∧ is_Some (universe_summary w f).

#[global] Instance summarized_dec `{PyRuntime} w f : Decision (summarized w f) :=
  and_dec _ _.

(** Whether a write raised. *)
Fixpoint io_failed (io : write_outcome) : bool :=
  match io with
  | Written _ => false
  | OpenRaises | WriteRaises _ _ => true
  | Through _ io' => io_failed io'
  end.

(* ===================================================================== *)
(** ** Logging                                                            *)
(* ===================================================================== *)

(** [needle in hay] for two [str] values: [needle] occurs somewhere in
    [hay]. *)
Fixpoint str_contains (hay needle : str) : bool :=
  startswith hay needle
  || match hay with
     | [] => false
     | _ :: hay' => str_contains hay' needle
     end.

(** [x in v] for a [str] [x]: a substring test on a [str], an element test
    on a [list], a key test on a [dict]; [None] stands for the [TypeError]
    raised on a value that is no container. *)
Definition py_contains (x : str) (v : pyval) : option bool :=
  match v with
  | PStr s => Some (str_contains s x)
  | PList items =>
      Some (existsb (fun i => match i with
                              | PStr s => bool_decide (s = x)
                              | _ => false
                              end) items)
  | PDict items =>
      Some (match assoc x items with Some _ => true | None => false end)
  | _ => None
  end.

(** What one call of [log_message] comes to. *)
Inductive log_outcome :=
| Logged            (* handed on to BaseHTTPRequestHandler.log_message *)
| Suppressed        (* nothing written *)
| LogRaises.        (* TypeError *)

(** [[
def log_message(self, format, *args):
    # Suppress static file logs, only show API calls
    if '/api/' in (args[0] if args else ''):
        super().log_message(format, *args)
]] *)
Definition log_message (format : str) (args : list pyval) : log_outcome :=
  match py_contains (u "/api/") (match args with a :: _ => a | [] => PStr [] end) with
  | Some true => Logged
  | Some false => Suppressed
  | None => LogRaises
  end.

(** The two places where [http.server] calls the hook while a handler of
    this server answers.  [send_response(200)] runs
    [log_request(200)], that is
    [log_message('"%s" %s %s', self.requestline, '200', '-')]; and
    [send_error(code, message)] starts, before it writes anything, with
    [log_error("code %d, message %s", code, message)], which hands its
    arguments to [log_message]. *)
Definition log_request_200 (requestline : str) : log_outcome :=
  log_message ([34] ++ u "%s" ++ [34] ++ u " %s %s")
    [PStr requestline; PStr (u "200"); PStr (u "-")].

Definition log_error_call (code : Z) (message : str) : log_outcome :=
  log_message (u "code %d, message %s") [PInt code; PStr message].

(** What becomes of a handler's answer once the hook has run: it goes out,
    or the hook's exception leaves the handler with nothing written.
    [SendError code None] is [send_error(code)], whose message is then the
    standard phrase for the code; the outcome of the hook does not depend on
    it.  The static fallback is the library's own business. *)
Inductive delivery :=
| Delivered (r : response)
| HandlerRaises
| LeftToStatic.

Definition deliver (requestline : str) (r : response) : delivery :=
  match r with
  | Raw200 _ | Json200 _ =>
      match log_request_200 requestline with
      | LogRaises => HandlerRaises
      | _ => Delivered r
      end
  | SendError code message =>
      match log_error_call code (default [] message) with
      | LogRaises => HandlerRaises
      | _ => Delivered r
      end
  | StaticGet => LeftToStatic
  end.

(** A character of a display name that survives sanitization unchanged and
    is no underscore. *)
Definition display_char `{PyRuntime} (c : N) : bool :=
  allowed c && negb (is_space c) && negb (c =? 95).

(** What the second replacement of [name_from_filename] does to one
    character. *)
Definition underscore_to_space (c : N) : N := if c =? 95 then 32 else c.


(** The [filename] field of a listing entry. *)
Definition entry_filename (entry : pyval) : option pyval :=
  dict_get entry (u "filename") PNone.

(* ===================================================================== *)
(** ** A concrete runtime and a few concrete directories                  *)
(* ===================================================================== *)

(** The text of a JSON object with a [creatures] array of two objects. *)
Definition two_creatures : str :=
  u "{" ++ [34] ++ u "creatures" ++ [34] ++ u ": [{}, {}]}".

(** A small runtime on which the model runs as it stands: ASCII names (no
    alphanumerics or whitespace beyond U+007F), request paths whose only
    percent escape is [%20], a [json.loads] that reads the two documents
    used below and rejects everything else, the script in
    [/srv/ecosystem]. *)
Definition demo_runtime : PyRuntime := {|
  uni_isalnum := fun _ => false;
  uni_isspace := fun _ => false;
  unquote := fun s => str_replace s (u "%20") (u " ");
  json_loads := fun s =>
    if bool_decide (s = u "{}") then Some (PDict [])
    else if bool_decide (s = two_creatures)
    then Some (PDict [(u "creatures", PList [PDict []; PDict []])])
    else None;
  script_dir := u "/srv/ecosystem";
|}.

(** The metadata of a file of ASCII text last written at a fixed time. *)
Definition stat_of (text : str) : stat_result :=
  {| saved_at_ms := 1700000000000; st_size := Z.of_nat (length text) |}.

Definition demo_stat : stat_result := stat_of (u "{}").

(** [saves/a.json] holds an empty object. *)
Definition demo_world : world :=
  {[ u "/srv/ecosystem/saves/a.json" := Reg (u "{}") demo_stat ]}.

(** [saves/a.json] holds one line that ends in carriage return, line feed. *)
Definition crlf_world : world :=
  {[ u "/srv/ecosystem/saves/a.json"
     := Reg (u "{}" ++ [13; 10]) (stat_of (u "{}" ++ [13; 10])) ]}.

(** A directory with two well-formed saves, one file that is no JSON, one
    dangling link and one file that is no save. *)
Definition mixed_world : world :=
  <[ u "/srv/ecosystem/saves/b.json"
     := Reg two_creatures (stat_of two_creatures) ]>
  (<[ u "/srv/ecosystem/saves/a.json" := Reg (u "{}") demo_stat ]>
  (<[ u "/srv/ecosystem/saves/broken.json"
      := Reg (u "{oops") (stat_of (u "{oops")) ]>
  (<[ u "/srv/ecosystem/saves/gone.json" := Dangling ]>
  (<[ u "/srv/ecosystem/saves/notes.txt" := Reg (u "{}") demo_stat ]> ∅)))).


(** The same runtime with a [json.loads] that reads the empty array and
    nothing else, and a directory whose one save holds it. *)
Definition array_runtime : PyRuntime := {|
  uni_isalnum := fun _ => false;
  uni_isspace := fun _ => false;
  unquote := fun s => str_replace s (u "%20") (u " ");
  json_loads := fun s => if bool_decide (s = u "[]") then Some (PList []) else None;
  script_dir := u "/srv/ecosystem";
|}.

Definition array_world : world :=
  {[ u "/srv/ecosystem/saves/list.json" := Reg (u "[]") (stat_of (u "[]")) ]}.

(* ===================================================================== *)
(** ** Strings: scanning, stripping, replacing                            *)
(* ===================================================================== *)

Section StringFacts.
Context `{PyRuntime}.
Implicit Types (s t : str) (c : N) (p : N → bool).

Lemma drop_while_drop p s :
  drop_while p s = drop (length (take_while p s)) s.
Proof. induction s as [|c s IH]; simpl; [done|]. destruct (p c); simpl; done. Qed.

Lemma take_while_app_stop p s t c :
  p c = false → take_while p (s ++ c :: t) = take_while p (s ++ [c]).
Proof.
  intros Hc. induction s as [|d s IH]; simpl.
  - by rewrite Hc.
  - destruct (p d); [by rewrite IH|done].
Qed.

(** Either everything satisfies [p], or the string splits at the first
    character that does not. *)
Lemma take_drop_while p s :
  s = take_while p s ++ drop_while p s.
Proof. induction s as [|c s IH]; simpl; [done|]. destruct (p c); simpl; congruence. Qed.

Lemma drop_while_head p s c t : drop_while p s = c :: t → p c = false.
Proof.
  induction s as [|d s IH]; simpl; [done|].
  destruct (p d) eqn:Hd; [done|]. by intros [= -> _].
Qed.

(** *** [re.sub] *)

Lemma sub_from_skip pat repl k s :
  sub_from pat repl k s = sub_from pat repl 0 (drop k s).
Proof.
  revert k. induction s as [|c s IH]; intros [|k]; simpl; [done..|apply IH].
Qed.

(** Substituting the empty string for a negated set keeps exactly the
    characters that some item of the set matches. *)
Lemma re_sub_negset items s :
  re_sub (NegSet items) [] s
  = filter (fun c => existsb (fun i => item_matches i c) items = true) s.
Proof.
  unfold re_sub. induction s as [|c s IH]; [done|].
  cbn [sub_from match_at]. rewrite filter_cons.
  case_decide as E.
  - rewrite E. by rewrite IH.
  - apply not_true_is_false in E. rewrite E. simpl. by rewrite IH.
Qed.

(** One step of the scan for [x+]: a character the item matches starts a run,
    which is replaced as a whole. *)
Lemma re_sub_plus_cons i repl c s :
  re_sub (Plus i) repl (c :: s)
  = if item_matches i c
    then repl ++ re_sub (Plus i) repl (drop_while (item_matches i) s)
    else c :: re_sub (Plus i) repl s.
Proof.
  unfold re_sub. cbn [sub_from match_at].
  destruct (item_matches i c) eqn:E; [|done].
  cbn [take_while]. rewrite E. cbn [length].
  by rewrite sub_from_skip, <- drop_while_drop.
Qed.

(** *** [str.strip] *)

Lemma no_lead_drop_while s : no_lead (drop_while is_space s) = true.
Proof.
  destruct (drop_while is_space s) as [|c t] eqn:E; [done|].
  simpl. by rewrite (drop_while_head _ _ _ _ E).
Qed.

Lemma no_trail_snoc s c : no_trail (s ++ [c]) = negb (is_space c).
Proof.
  induction s as [|d s IH]; [done|].
  simpl. destruct (s ++ [c]) eqn:E; [by destruct s|]. by rewrite <- IH.
Qed.

Lemma no_trail_rev s : no_lead s = true → no_trail (rev s) = true.
Proof. destruct s as [|c s]; [done|]. simpl. by rewrite no_trail_snoc. Qed.

Lemma no_lead_take s n : no_lead s = true → no_lead (take n s) = true.
Proof. by destruct s, n. Qed.

(** Dropping trailing whitespace, by index. *)
Lemma rev_drop_while_rev p s :
  rev (drop_while p (rev s))
  = take (length s - length (take_while p (rev s))) s.
Proof.
  by rewrite drop_while_drop, skipn_rev, rev_involutive.
Qed.

(** The index form of [strip] and the two-sided trimming agree. *)
Lemma strip_trim s : strip s = trim s.
Proof.
  unfold strip, trim, slice.
  rewrite rev_drop_while_rev, <- drop_while_drop.
  destruct (drop_while is_space s) as [|c t] eqn:E.
  - by rewrite !take_nil.
  - f_equal.
    pose proof (take_drop_while is_space s) as Hs. rewrite E in Hs.
    pose proof (drop_while_head _ _ _ _ E) as Hc.
    assert (length s = length (take_while is_space s) + length (c :: t))%nat
      as Hlen by (rewrite Hs at 1; by rewrite length_app).
    assert (take_while is_space (rev s) = take_while is_space (rev (c :: t)))
      as ->; [|lia].
    rewrite Hs at 1. rewrite rev_app_distr. simpl.
    rewrite <- app_assoc. simpl. by rewrite take_while_app_stop.
Qed.

Lemma trim_no_lead s : no_lead (trim s) = true.
Proof.
  unfold trim. rewrite rev_drop_while_rev.
  apply no_lead_take, no_lead_drop_while.
Qed.

Lemma trim_no_trail s : no_trail (trim s) = true.
Proof. unfold trim. apply no_trail_rev, no_lead_drop_while. Qed.

Lemma trim_subseteq s : trim s ⊆ s.
Proof.
  unfold trim. rewrite rev_drop_while_rev. intros c Hc.
  apply subseteq_take in Hc.
  rewrite (take_drop_while is_space s). set_solver.
Qed.

(** *** Words and underscores *)

Lemma split_spaces_cons s : ∃ w ws, split_spaces s = w :: ws.
Proof.
  destruct s as [|c s]; simpl; [by eauto|].
  destruct (is_space c); [by eauto|].
  destruct (split_spaces s); eauto.
Qed.

Lemma words_space c s : is_space c = true → words (c :: s) = words s.
Proof.
  intros Hc. unfold words. simpl. rewrite Hc.
  rewrite filter_cons. by rewrite decide_False by (by intros ?).
Qed.

Lemma words_nonspace c s :
  is_space c = false →
  words (c :: s)
  = match s with
    | [] => [[c]]
    | d :: _ =>
        if is_space d then [c] :: words s
        else match words s with
             | w :: ws => (c :: w) :: ws
             | [] => [[c]]
             end
    end.
Proof.
  intros Hc. unfold words. cbn [split_spaces]. rewrite Hc.
  destruct s as [|d s]; [done|].
  cbn [split_spaces]. destruct (is_space d) eqn:Hd.
  - rewrite !filter_cons. rewrite decide_True by done.
    by rewrite decide_False by (by intros ?).
  - destruct (split_spaces_cons s) as (w & ws & ->).
    rewrite !filter_cons. by rewrite !decide_True by done.
Qed.

Lemma no_trail_cons c s : s ≠ [] → no_trail (c :: s) = no_trail s.
Proof. by destruct s. Qed.

Lemma words_nonempty s : no_trail s = true → s ≠ [] → words s ≠ [].
Proof.
  induction s as [|c s IH]; [done|]. intros Ht _.
  destruct (is_space c) eqn:Hc.
  - rewrite words_space by done.
    destruct s as [|d s]; [by simpl in Ht; rewrite Hc in Ht|].
    apply IH; [|done]. by rewrite no_trail_cons in Ht.
  - rewrite words_nonspace by done.
    destruct s as [|d s]; [done|]. destruct (is_space d); [done|].
    by destruct (words (d :: s)).
Qed.

Lemma join_cons_cons sep c w ws : join sep ((c :: w) :: ws) = c :: join sep (w :: ws).
Proof. simpl. by destruct ws. Qed.

(** What the scan for [\s+] produces on a string that does not end in
    whitespace: the words joined by underscores, after one more underscore
    when the string starts with whitespace. *)
Lemma re_sub_spaces_collapse s :
  no_trail s = true →
  re_sub (Plus Space) (u "_") s
  = (if no_lead s then [] else u "_") ++ collapse s.
Proof.
  unfold collapse.
  induction s as [|c s IH]; [done|]. intros Ht.
  rewrite re_sub_plus_cons. cbn [item_matches no_lead].
  destruct (is_space c) eqn:Hc; cbn [negb].
  - rewrite words_space by done. f_equal.
    destruct s as [|d s]; [by simpl in Ht; rewrite Hc in Ht|].
    rewrite no_trail_cons in Ht by done. specialize (IH Ht).
    rewrite re_sub_plus_cons in IH. cbn [item_matches no_lead] in IH.
    cbn [drop_while item_matches].
    destruct (is_space d) eqn:Hd; cbn [negb] in IH.
    + by apply app_inv_head in IH.
    + rewrite re_sub_plus_cons. cbn [item_matches]. by rewrite Hd.
  - rewrite words_nonspace by done. simpl app.
    destruct s as [|d s]; [done|].
    rewrite no_trail_cons in Ht by done. specialize (IH Ht).
    rewrite IH. cbn [no_lead].
    destruct (is_space d) eqn:Hd; cbn [negb].
    + pose proof (words_nonempty (d :: s) Ht) as Hw.
      destruct (words (d :: s)) as [|w ws]; [by destruct Hw|]. done.
    + destruct (words (d :: s)) as [|w ws] eqn:Hw.
      * by destruct (words_nonempty (d :: s) Ht).
      * by rewrite join_cons_cons.
Qed.

Lemma allowed_items c :
  existsb (fun i => item_matches i c) [Word; Space; Lit 45] = allowed c.
Proof.
  unfold allowed. simpl. unfold is_word. by rewrite orb_false_r, !orb_assoc.
Qed.

Lemma safe_stem_spec name :
  re_sub (Plus Space) (u "_") (strip (re_sub (NegSet [Word; Space; Lit 45]) [] name))
  = spec_stem name.
Proof.
  rewrite re_sub_negset, strip_trim.
  rewrite (list_filter_iff _ (fun c => allowed c = true)); last first.
  { intros c. by rewrite allowed_items. }
  unfold spec_stem.
  rewrite re_sub_spaces_collapse by apply trim_no_trail.
  by rewrite trim_no_lead.
Qed.

Lemma safe_filename_spec name : safe_filename name = spec_filename name.
Proof.
  unfold safe_filename, spec_filename. rewrite safe_stem_spec.
  destruct (spec_stem name); by simpl.
Qed.
End StringFacts.

(* ===================================================================== *)
(** ** Filenames and paths                                                *)
(* ===================================================================== *)

Section FilenameFacts.
Context `{PyRuntime}.
Implicit Types (s t : str) (c : N) (p : N → bool).

(** Every character the scan for [\s+] emits is the underscore or a
    character of the input that is no whitespace. *)
Lemma sub_from_spaces_chars k s c :
  c ∈ sub_from (Plus Space) (u "_") k s →
  c = 95 ∨ (c ∈ s ∧ is_space c = false).
Proof.
  revert k. induction s as [|d s IH]; intros k; [by intros ?%elem_of_nil|].
  destruct k as [|k]; cbn [sub_from match_at item_matches].
  - destruct (is_space d) eqn:Hd.
    + cbn [take_while item_matches]. rewrite Hd. cbn [length].
      intros [Hc|Hc]%elem_of_app.
      * left. apply list_elem_of_singleton in Hc. done.
      * destruct (IH _ Hc) as [?|[? ?]]; [by left|right]. split; [by right|done].
    + intros [->|Hc]%elem_of_cons.
      * right. split; [by left|done].
      * destruct (IH _ Hc) as [?|[? ?]]; [by left|right]. split; [by right|done].
  - intros Hc. destruct (IH _ Hc) as [?|[? ?]]; [by left|right].
    split; [by right|done].
Qed.

Lemma stem_char_not_special c : stem_char c → c ≠ 46 ∧ c ≠ 47 ∧ c ≠ 92.
Proof.
  intros [Hw| ->]; [|done].
  repeat split; intros ->; by compute in Hw.
Qed.

Lemma safe_filename_Some name fn :
  safe_filename name = Some fn →
  ∃ stem, fn = stem ++ u ".json" ∧ stem ≠ [] ∧ Forall stem_char stem.
Proof.
  unfold safe_filename.
  destruct (re_sub (Plus Space) _ _) as [|c0 stem] eqn:E; [done|].
  intros [= <-]. exists (c0 :: stem). split; [done|]. split; [done|].
  rewrite <- E. apply Forall_forall. intros c Hc.
  apply sub_from_spaces_chars in Hc as [->|[Hc Hs]]; [by left|].
  rewrite strip_trim in Hc. apply trim_subseteq in Hc.
  rewrite re_sub_negset in Hc. apply list_elem_of_filter in Hc as [Hc _].
  rewrite allowed_items in Hc. unfold allowed in Hc. rewrite Hs in Hc.
  unfold stem_char, is_word.
  destruct (is_alnum c), (c =? 95) eqn:E95; simpl in *; try by left.
  right. by apply N.eqb_eq.
Qed.

Lemma safe_filename_None name :
  safe_filename name = None ↔ spec_stem name = [].
Proof.
  rewrite safe_filename_spec. unfold spec_filename. by case_bool_decide.
Qed.

(** *** [str.replace] *)

Lemma startswith_app s t : startswith (t ++ s) t = true.
Proof. induction t as [|c t IH]; [by destruct s|]. simpl. by rewrite N.eqb_refl. Qed.

Lemma startswith_inv s t : startswith s t = true → ∃ r, s = t ++ r.
Proof.
  revert s. induction t as [|c t IH]; intros s; [by exists s|].
  destruct s as [|d s]; [done|]. simpl.
  intros [->%N.eqb_eq [r ->]%IH]%andb_true_iff. by exists r.
Qed.

(** Replacing a single character is a character-wise map. *)
Lemma str_replace_char s a b :
  str_replace s [a] [b] = (fun c => if c =? a then b else c) <$> s.
Proof.
  unfold str_replace. induction s as [|c s IH]; [done|].
  cbn [replace_from startswith length]. rewrite andb_true_r.
  rewrite fmap_cons. change (1 - 1)%nat with 0%nat. rewrite IH. by destruct (c =? a).
Qed.

(** On a stem without a full stop, the only occurrence of [.json] in
    [stem ++ ".json"] is the extension. *)
Lemma str_replace_extension stem :
  46 ∉ stem → str_replace (stem ++ u ".json") (u ".json") [] = stem.
Proof.
  unfold str_replace. induction stem as [|c stem IH]; [done|].
  intros [Hc Hs]%not_elem_of_cons.
  cbn [app replace_from]. 
  assert (startswith (c :: stem ++ u ".json") (u ".json") = false) as ->.
  { simpl. apply andb_false_iff. left. by apply N.eqb_neq. }
  by rewrite IH.
Qed.

Lemma drop_suffix_app s t : drop_suffix (s ++ t) t = s.
Proof.
  unfold drop_suffix, endswith. rewrite rev_app_distr, startswith_app.
  rewrite length_app. replace (length s + length t - length t)%nat with (length s) by lia.
  by rewrite take_app_length.
Qed.

(** On the filenames [safe_filename] produces, the two replacements of
    [name_from_filename] drop the extension and turn underscores to spaces. *)
Lemma name_from_safe_filename name fn :
  safe_filename name = Some fn →
  name_from_filename fn = spec_name_from_filename fn.
Proof.
  intros (stem & -> & _ & Hstem)%safe_filename_Some.
  unfold name_from_filename, spec_name_from_filename.
  rewrite drop_suffix_app, str_replace_extension; [apply str_replace_char|].
  intros Hdot. rewrite Forall_forall in Hstem.
  by destruct (stem_char_not_special _ (Hstem _ Hdot)) as [? _].
Qed.

(** *** Paths *)

Lemma SAVES_DIR_shape :
  SAVES_DIR = script_dir ++ u "saves" ∨ SAVES_DIR = script_dir ++ u "/saves".
Proof.
  unfold SAVES_DIR, os_path_join.
  change (startswith (u "saves") (u "/")) with false. cbn iota.
  destruct (_ || _); [by left|by right].
Qed.

Lemma SAVES_DIR_no_slash_end : endswith SAVES_DIR (u "/") = false.
Proof.
  unfold endswith.
  destruct SAVES_DIR_shape as [-> | ->]; by rewrite rev_app_distr.
Qed.

Lemma SAVES_DIR_nonempty : SAVES_DIR ≠ [].
Proof.
  destruct SAVES_DIR_shape as [-> | ->]; by intros [? ?]%app_eq_nil.
Qed.

Lemma join_SAVES_DIR f :
  startswith f (u "/") = false →
  os_path_join SAVES_DIR f = SAVES_DIR ++ u "/" ++ f.
Proof.
  intros Hf. unfold os_path_join. rewrite Hf, SAVES_DIR_no_slash_end.
  rewrite bool_decide_eq_false_2 by apply SAVES_DIR_nonempty. done.
Qed.

Lemma no_slash_startswith f : 47 ∉ f → startswith f (u "/") = false.
Proof.
  destruct f as [|c f]; [done|]. intros [Hc _]%not_elem_of_cons. simpl.
  rewrite andb_true_r. by apply N.eqb_neq.
Qed.

Lemma safe_filename_no_slash name fn :
  safe_filename name = Some fn → 47 ∉ fn.
Proof.
  intros (stem & -> & _ & Hstem)%safe_filename_Some.
  rewrite Forall_forall in Hstem.
  intros [Hc|Hc]%elem_of_app.
  - by destruct (stem_char_not_special _ (Hstem _ Hc)) as (_ & ? & _).
  - by revert Hc; apply (bool_decide_unpack (47 ∉ u ".json")).
Qed.

Lemma safe_filepath name fn :
  safe_filename name = Some fn →
  os_path_join SAVES_DIR fn = SAVES_DIR ++ u "/" ++ fn.
Proof.
  intros Hfn. by apply join_SAVES_DIR, no_slash_startswith, (safe_filename_no_slash name).
Qed.

End FilenameFacts.

(* ===================================================================== *)
(** ** The operations and their handlers                                  *)
(* ===================================================================== *)

Section OperationFacts.
Context `{PyRuntime}.
Implicit Types (s t p name body : str) (c : N) (w : world).

Lemma os_path_exists_true w p :
  os_path_exists w p = true ↔ ∃ content st, w !! p = Some (Reg content st).
Proof.
  unfold os_path_exists, os_stat. rewrite bool_decide_eq_true.
  destruct (w !! p) as [[content st|]|]; split;
    try (by intros [? ?]); try (by intros (? & ? & ?)); eauto.
Qed.

Lemma os_path_exists_false w p :
  os_path_exists w p = false ↔ w !! p = None ∨ w !! p = Some Dangling.
Proof.
  rewrite <- not_true_iff_false, os_path_exists_true.
  destruct (w !! p) as [[content st|]|].
  - split; [intros []; by eauto|by intros [|]].
  - split; [by right|]. by intros _ (? & ? & ?).
  - split; [by left|]. by intros _ (? & ? & ?).
Qed.

Lemma universal_newlines_id s : (13 ∉ s) → universal_newlines s = s.
Proof.
  induction s as [|c s IH]; [done|].
  intros [Hc Hs]%not_elem_of_cons. simpl.
  assert ((c =? 13) = false) as -> by (apply N.eqb_neq; congruence).
  by rewrite IH.
Qed.

Lemma startswith_api p : startswith (api_prefix ++ p) api_prefix = true.
Proof. apply startswith_app. Qed.

Lemma requested_name_api p : requested_name (api_prefix ++ p) = unquote p.
Proof. unfold requested_name. by rewrite drop_app_length. Qed.

Lemma api_path_not_list p : api_prefix ++ p ≠ u "/api/universes".
Proof. intros E. apply (f_equal length) in E. rewrite length_app in E. simpl in E. lia. Qed.

(** The three outcomes of [load_universe]. *)
Lemma load_universe_cases w name :
  (safe_filename name = None ∧ load_universe w name = None)
  ∨ (∃ fn, safe_filename name = Some fn
       ∧ os_path_exists w (os_path_join SAVES_DIR fn) = false
       ∧ load_universe w name = None)
  ∨ (∃ fn content st, safe_filename name = Some fn
       ∧ os_path_exists w (os_path_join SAVES_DIR fn) = true
       ∧ w !! os_path_join SAVES_DIR fn = Some (Reg content st)
       ∧ load_universe w name = Some (universal_newlines content)).
Proof.
  unfold load_universe. destruct (safe_filename name) as [fn|]; [|by left].
  right. destruct (os_path_exists w _) eqn:E; simpl.
  - right. pose proof E as (content & st & Hw)%os_path_exists_true.
    exists fn, content, st. unfold read_text. by rewrite Hw.
  - left. by exists fn.
Qed.

Lemma do_GET_api w p :
  do_GET w (api_prefix ++ p)
  = match load_universe w (unquote p) with
    | Some data => Raw200 data
    | None => SendError 404 (Some (u "Universe not found"))
    end.
Proof.
  unfold do_GET. rewrite bool_decide_eq_false_2 by apply api_path_not_list.
  by rewrite startswith_api, requested_name_api.
Qed.

Lemma do_POST_api io w p body :
  do_POST io w (api_prefix ++ p) body
  = let '(ok, w') := save_universe io w (unquote p) body in
    if ok
    then (Json200 (PDict [(u "ok", PBool true); (u "name", PStr (unquote p))]), w')
    else (SendError 400 (Some (u "Failed to save")), w').
Proof. unfold do_POST. by rewrite startswith_api, requested_name_api. Qed.

Lemma do_DELETE_api w p :
  do_DELETE w (api_prefix ++ p)
  = let '(ok, w') := delete_universe w (unquote p) in
    if ok
    then (Json200 (PDict [(u "ok", PBool true)]), w')
    else (SendError 404 (Some (u "Universe not found")), w').
Proof. unfold do_DELETE. by rewrite startswith_api, requested_name_api. Qed.

(** The call a Load request ends with.  It is
    [send_error(404, 'Universe not found')] exactly when the name does not
    sanitize or the sanitized file does not exist in the saves directory;
    otherwise it is the 200 answer whose body is the stored text as a
    text-mode read returns it: equal to the stored content whenever that
    holds no carriage return, and with each ["\r\n"] or lone ["\r"] turned
    into ["\n"] otherwise. *)
Lemma do_GET_load_call w p :
  (do_GET w (api_prefix ++ p) = SendError 404 (Some (u "Universe not found"))
   ↔ safe_filename (unquote p) = None
     ∨ ∃ fn, safe_filename (unquote p) = Some fn
             ∧ os_path_exists w (os_path_join SAVES_DIR fn) = false)
  ∧ (∀ fn, safe_filename (unquote p) = Some fn →
           os_path_exists w (os_path_join SAVES_DIR fn) = true →
           ∃ content st,
             w !! os_path_join SAVES_DIR fn = Some (Reg content st)
             ∧ do_GET w (api_prefix ++ p) = Raw200 (universal_newlines content)
             ∧ ((13 ∉ content) → do_GET w (api_prefix ++ p) = Raw200 content)).
Proof.
  rewrite do_GET_api.
  destruct (load_universe_cases w (unquote p))
    as [[Hn ->]|[(fn & Hfn & Hex & ->)|(fn & content & st & Hfn & Hex & Hw & ->)]].
  - split; [by split; [left|]|]. intros fn. by rewrite Hn.
  - split; [split; [right; by exists fn|done]|].
    intros fn'. rewrite Hfn. intros [= <-]. by rewrite Hex.
  - split.
    + split; [done|]. intros [Hn|(fn' & Hfn' & Hex')]; [by rewrite Hfn in Hn|].
      rewrite Hfn in Hfn'. injection Hfn' as <-. by rewrite Hex in Hex'.
    + intros fn'. rewrite Hfn. intros [= <-] _. exists content, st.
      split; [done|]. split; [done|]. intros Hcr. by rewrite universal_newlines_id.
Qed.

Lemma save_universe_cases io w name body :
  (safe_filename name = None ∧ save_universe io w name body = (false, w))
  ∨ (∃ fn, safe_filename name = Some fn
       ∧ save_universe io w name body
         = write_text io w (os_path_join SAVES_DIR fn) body).
Proof.
  unfold save_universe. destruct (safe_filename name) as [fn|]; [right|left]; eauto.
Qed.

Lemma write_text_ok io w q data :
  (write_text io w q data).1 = negb (io_failed io).
Proof.
  revert w q. induction io as [st| |partial st|target io IH]; intros w q; try done.
  simpl. specialize (IH w target).
  by destruct (write_text io w target data) as [ok w'].
Qed.


(** The call a Save request ends with.  It is
    [send_error(400, 'Failed to save')] exactly when the name does not
    sanitize or the write raises; when the name sanitizes and the write to
    the path itself goes through, the sanitized file holds the body as
    given, whatever it held before and whether or not the body is JSON, and
    the call is [send_json({'ok': True, 'name': name})]. *)
Lemma do_POST_save_call io w p body :
  ((do_POST io w (api_prefix ++ p) body).1 = SendError 400 (Some (u "Failed to save"))
   ↔ safe_filename (unquote p) = None ∨ io_failed io = true)
  ∧ (∀ fn st, safe_filename (unquote p) = Some fn → io = Written st →
       do_POST io w (api_prefix ++ p) body
       = (Json200 (PDict [(u "ok", PBool true); (u "name", PStr (unquote p))]),
          <[os_path_join SAVES_DIR fn := Reg body st]> w)).
Proof.
  rewrite do_POST_api.
  destruct (save_universe_cases io w (unquote p) body) as [[Hn ->]|(fn & Hfn & ->)].
  - split; [by split; [left|]|]. intros fn. by rewrite Hn.
  - split.
    + pose proof (write_text_ok io w (os_path_join SAVES_DIR fn) body) as Hok.
      destruct (write_text io w _ body) as [ok w']. simpl in *. subst ok.
      destruct (io_failed io); simpl; split; try done; [by right|].
      intros [Hn|Hio]; [by rewrite Hfn in Hn|done].
    + intros fn' st. rewrite Hfn. by intros [= <-] ->.
Qed.

(** For a name that does not sanitize, a Save request ends with the call
    [send_error(400, 'Failed to save')] and leaves the saves directory as it
    was. *)
Lemma do_POST_unsanitizable_call io w p body :
  safe_filename (unquote p) = None →
  do_POST io w (api_prefix ++ p) body
  = (SendError 400 (Some (u "Failed to save")), w).
Proof.
  intros Hn. rewrite do_POST_api. unfold save_universe. by rewrite Hn.
Qed.

Lemma delete_universe_cases w name :
  (safe_filename name = None ∧ delete_universe w name = (false, w))
  ∨ (∃ fn, safe_filename name = Some fn
       ∧ os_path_exists w (os_path_join SAVES_DIR fn) = false
       ∧ delete_universe w name = (false, w))
  ∨ (∃ fn, safe_filename name = Some fn
       ∧ os_path_exists w (os_path_join SAVES_DIR fn) = true
       ∧ delete_universe w name = (true, delete (os_path_join SAVES_DIR fn) w)).
Proof.
  unfold delete_universe. destruct (safe_filename name) as [fn|]; [|by left].
  right. destruct (os_path_exists w _) eqn:E; [right|left]; by exists fn.
Qed.

Lemma load_after_remove w name fn :
  safe_filename name = Some fn →
  load_universe (delete (os_path_join SAVES_DIR fn) w) name = None.
Proof.
  intros Hfn. unfold load_universe. rewrite Hfn.
  assert (os_path_exists (delete (os_path_join SAVES_DIR fn) w)
            (os_path_join SAVES_DIR fn) = false) as ->; [|done].
  apply os_path_exists_false. left. apply lookup_delete_eq.
Qed.

(** The call a Delete request ends with.  It is
    [send_error(404, 'Universe not found')] exactly when the name does not
    sanitize or the sanitized file does not exist; otherwise the file is
    removed, the call is [send_json({'ok': True})], and a Load of the same
    name then ends with [send_error(404, 'Universe not found')]. *)
Lemma do_DELETE_call w p :
  ((do_DELETE w (api_prefix ++ p)).1 = SendError 404 (Some (u "Universe not found"))
   ↔ safe_filename (unquote p) = None
     ∨ ∃ fn, safe_filename (unquote p) = Some fn
             ∧ os_path_exists w (os_path_join SAVES_DIR fn) = false)
  ∧ (∀ fn, safe_filename (unquote p) = Some fn →
           os_path_exists w (os_path_join SAVES_DIR fn) = true →
           do_DELETE w (api_prefix ++ p)
           = (Json200 (PDict [(u "ok", PBool true)]),
              delete (os_path_join SAVES_DIR fn) w)
           ∧ do_GET (delete (os_path_join SAVES_DIR fn) w) (api_prefix ++ p)
             = SendError 404 (Some (u "Universe not found"))).
Proof.
  rewrite do_DELETE_api.
  destruct (delete_universe_cases w (unquote p))
    as [[Hn ->]|[(fn & Hfn & Hex & ->)|(fn & Hfn & Hex & ->)]].
  - split; [by split; [left|]|]. intros fn. by rewrite Hn.
  - split; [split; [right; by exists fn|done]|].
    intros fn'. rewrite Hfn. intros [= <-]. by rewrite Hex.
  - split.
    + split; [done|]. intros [Hn|(fn' & Hfn' & Hex')]; [by rewrite Hfn in Hn|].
      rewrite Hfn in Hfn'. injection Hfn' as <-. by rewrite Hex in Hex'.
    + intros fn'. rewrite Hfn. intros [= <-] _. split; [done|].
      by rewrite do_GET_api, load_after_remove.
Qed.

End OperationFacts.

(* ===================================================================== *)
(** ** Save then load; where the operations reach                         *)
(* ===================================================================== *)

Section RoundTrip.
Context `{PyRuntime}.
Implicit Types (s t p name body : str) (c : N) (w : world).

(** A character that is allowed and no whitespace survives both the
    filtering and the stripping. *)
Lemma trim_keeps s c :
  c ∈ s → is_space c = false → c ∈ trim s.
Proof.
  intros Hc Hs. unfold trim.
  assert (∀ t, c ∈ t → c ∈ drop_while is_space t) as Hdrop.
  { intros t. induction t as [|d t IH]; [done|]. simpl.
    destruct (is_space d) eqn:Hd; [|done].
    intros [->|?]%elem_of_cons; [congruence|by apply IH]. }
  assert (∀ t, c ∈ t → c ∈ rev t) as Hrev.
  { intros t Ht. apply list_elem_of_In. apply -> in_rev. by apply list_elem_of_In. }
  by apply Hrev, Hdrop, Hrev, Hdrop.
Qed.

Lemma words_nil_no_chars s c : words s = [] → c ∈ s → is_space c = true.
Proof.
  induction s as [|d s IH]; [by intros _ ?%elem_of_nil|].
  destruct (is_space d) eqn:Hd.
  - rewrite words_space by done. intros Hw [->|?]%elem_of_cons; [done|by apply IH].
  - rewrite words_nonspace by done. destruct s as [|e s]; [done|].
    destruct (is_space e); [done|]. by destruct (words (e :: s)).
Qed.

Lemma join_nil_head sep x ws : join sep (x :: ws) = [] → x = [].
Proof. simpl. destruct ws; [done|]. by intros [? _]%app_eq_nil. Qed.

Lemma words_nonempty_each s : Forall (fun x => x ≠ []) (words s).
Proof. apply Forall_forall. intros w. unfold words. by intros [? _]%list_elem_of_filter. Qed.

(** A name sanitizes as soon as it has one allowed character that is no
    whitespace. *)
Lemma safe_filename_is_Some name c :
  c ∈ name → allowed c = true → is_space c = false →
  is_Some (safe_filename name).
Proof.
  intros Hc Ha Hs.
  destruct (safe_filename name) as [fn|] eqn:E; [by eexists|exfalso].
  apply safe_filename_None in E. unfold spec_stem, collapse in E.
  pose proof (words_nonempty_each (trim (filter (λ c, allowed c = true) name))) as Hne.
  destruct (words _) as [|w ws] eqn:Hw.
  - assert (is_space c = true); [|congruence].
    eapply words_nil_no_chars; [done|].
    apply trim_keeps; [|done]. by apply list_elem_of_filter.
  - apply join_nil_head in E as ->. by apply Forall_cons in Hne as [? _].
Qed.

Lemma plain_allowed c : plain c = true → is_space c = false → allowed c = true.
Proof.
  unfold plain, allowed. intros Hp Hs. rewrite Hs.
  destruct (is_alnum c); [done|]. destruct (c =? 45); [by rewrite !orb_true_r|].
  rewrite !orb_false_r in Hp. simpl in Hp. apply N.eqb_eq in Hp as ->.
  by compute in Hs.
Qed.

(** Saving, when the write goes through, then loading. *)
Lemma load_after_save w name body st fn :
  safe_filename name = Some fn →
  save_universe (Written st) w name body
  = (true, <[os_path_join SAVES_DIR fn := Reg body st]> w)
  ∧ load_universe (<[os_path_join SAVES_DIR fn := Reg body st]> w) name
    = Some (universal_newlines body).
Proof.
  intros Hfn. unfold save_universe, load_universe. rewrite Hfn. split; [done|].
  assert (os_path_exists (<[os_path_join SAVES_DIR fn := Reg body st]> w)
            (os_path_join SAVES_DIR fn) = true) as ->.
  { apply os_path_exists_true. exists body, st. apply lookup_insert_eq. }
  unfold read_text. by rewrite lookup_insert_eq.
Qed.

(** C2, as amended.  For every name made only of letters, digits, spaces
    and hyphens that has at least one character that is no whitespace, and
    every body that holds no carriage return, a Save whose write goes
    through followed by a Load of the same name returns the body that was
    saved. *)
Theorem save_then_load w p body st :
  Forall (fun c => plain c = true) (unquote p) →
  Exists (fun c => is_space c = false) (unquote p) →
  (13 ∉ body) →
  ∃ fn,
    safe_filename (unquote p) = Some fn
    ∧ do_POST (Written st) w (api_prefix ++ p) body
      = (Json200 (PDict [(u "ok", PBool true); (u "name", PStr (unquote p))]),
         <[os_path_join SAVES_DIR fn := Reg body st]> w)
    ∧ do_GET (<[os_path_join SAVES_DIR fn := Reg body st]> w) (api_prefix ++ p)
      = Raw200 body.
Proof.
  intros Hplain (c & Hc & Hs)%Exists_exists Hcr.
  rewrite Forall_forall in Hplain.
  destruct (safe_filename_is_Some (unquote p) c) as [fn Hfn];
    [done|by apply plain_allowed, Hs; apply Hplain|done|].
  exists fn. split; [done|].
  destruct (load_after_save w (unquote p) body st fn Hfn) as [Hsave Hload].
  rewrite do_POST_api, Hsave, do_GET_api, Hload.
  by rewrite universal_newlines_id.
Qed.


End RoundTrip.

(* ===================================================================== *)
(** ** Listing                                                            *)
(* ===================================================================== *)


Section Listing.
Context `{PyRuntime}.
Implicit Types (s t p name body f d : str) (c : N) (w : world).

(** *** [os.listdir] *)

Lemma child_name_Some d p n :
  child_name d p = Some n ↔ p = d ++ u "/" ++ n ∧ n ≠ [] ∧ (47 ∉ n).
Proof.
  unfold child_name. split.
  - destruct (startswith p _) eqn:E; [|done].
    apply startswith_inv in E as [r ->].
    rewrite <- app_assoc.
    replace (length d + 1)%nat with (length (d ++ u "/")) by (rewrite length_app; done).
    rewrite app_assoc, drop_app_length.
    destruct (bool_decide (r ≠ [])) eqn:E1, (bool_decide (47 ∉ r)) eqn:E2; try done.
    intros [= <-]. apply bool_decide_eq_true in E1, E2. by rewrite <- app_assoc.
  - intros (-> & Hn & Hs).
    rewrite app_assoc, startswith_app.
    replace (length d + 1)%nat with (length (d ++ u "/")) by (rewrite length_app; done).
    rewrite drop_app_length.
    by rewrite !bool_decide_eq_true_2.
Qed.

Lemma elem_of_os_listdir w d n :
  n ∈ os_listdir w d ↔ n ≠ [] ∧ (47 ∉ n) ∧ is_Some (w !! (d ++ u "/" ++ n)).
Proof.
  unfold os_listdir. rewrite list_elem_of_omap. split.
  - intros (p & Hp & (-> & ? & ?)%child_name_Some).
    apply list_elem_of_fmap in Hp as ([q x] & -> & Hq). simpl.
    apply elem_of_map_to_list in Hq. split; [done|]. split; [done|]. by exists x.
  - intros (Hn & Hs & [x Hx]). exists (d ++ u "/" ++ n). split.
    + apply list_elem_of_fmap. exists (d ++ u "/" ++ n, x). split; [done|].
      by apply elem_of_map_to_list.
    + by apply child_name_Some.
Qed.

Lemma NoDup_os_listdir w d : NoDup (os_listdir w d).
Proof.
  unfold os_listdir.
  pose proof (NoDup_fst_map_to_list w) as Hnd.
  induction Hnd as [|p ps Hp _ IH]; [constructor|].
  simpl. destruct (child_name d p) as [n|] eqn:E; [|done].
  constructor; [|done].
  intros (q & Hq & Hqn)%list_elem_of_omap.
  apply child_name_Some in E as (-> & _), Hqn as (-> & _). done.
Qed.

(** *** [sorted] *)

#[local] Instance str_le_total : Total str_le.
Proof.
  intros a. unfold str_le. induction a as [|x a IH]; intros [|y b]; simpl; auto.
  destruct (N.ltb_spec x y), (N.ltb_spec y x); auto; lia.
Qed.

#[local] Instance str_le_trans : Transitive str_le.
Proof.
  intros a. unfold str_le. induction a as [|x a IH]; intros [|y b] [|z c]; simpl; try done.
  destruct (N.ltb_spec x y), (N.ltb_spec y x), (N.ltb_spec y z), (N.ltb_spec z y),
    (N.ltb_spec x z), (N.ltb_spec z x); try done; try lia.
  apply IH.
Qed.

#[local] Instance str_le_antisymm : AntiSymm (=) str_le.
Proof.
  intros a. unfold str_le. induction a as [|x a IH]; intros [|y b]; simpl; try done.
  destruct (N.ltb_spec x y), (N.ltb_spec y x); try done; try lia.
  intros ? ?. f_equal; [lia|by apply IH].
Qed.

Lemma sorted_StronglySorted (l : list str) : StronglySorted str_le (sorted l).
Proof. apply StronglySorted_merge_sort; apply _. Qed.

Lemma sorted_Permutation (l : list str) : sorted l ≡ₚ l.
Proof. apply merge_sort_Permutation. Qed.

Lemma StronglySorted_filter {A} (R : relation A) (P : A → Prop)
    `{!∀ x, Decision (P x)} (l : list A) :
  StronglySorted R l → StronglySorted R (filter P l).
Proof.
  induction 1 as [|x l Hl IH Hx]; [constructor|].
  rewrite filter_cons. case_decide; [|done].
  constructor; [done|]. apply Forall_forall. intros y [_ Hy]%list_elem_of_filter.
  rewrite Forall_forall in Hx. by apply Hx.
Qed.

(** *** The loop of [list_universes] *)

Lemma summaries_filter w (files : list str) :
  Forall2 (fun entry f => universe_summary w f = Some entry)
    (summaries w files) (filter (summarized w) files).
Proof.
  induction files as [|f files IH]; [constructor|].
  cbn [summaries]. rewrite filter_cons.
  destruct (decide (summarized w f)) as [[He [entry Hs]]|Hn].
  - rewrite He, Hs. simpl. by constructor.
  - destruct (endswith f _) eqn:He; simpl; [|done].
    destruct (universe_summary w f) eqn:Hs; [|done].
    destruct Hn. split; [done|by eexists].
Qed.

(** What it takes for one file to be summarized, and what the entry holds. *)
Lemma universe_summary_Some w f entry :
  universe_summary w f = Some entry ↔
  ∃ content st items n,
    w !! os_path_join SAVES_DIR f = Some (Reg content st)
    ∧ json_loads (universal_newlines content) = Some (PDict items)
    ∧ py_len (default (PList []) (assoc (u "creatures") items)) = Some n
    ∧ entry = PDict [ (u "name", PStr (name_from_filename f));
                      (u "filename", PStr f);
                      (u "tick", default (PInt 0) (assoc (u "tick") items));
                      (u "generation",
                       default (PInt 0) (assoc (u "maxGeneration") items));
                      (u "population", PInt (Z.of_nat n));
                      (u "savedAt", PInt (saved_at_ms st));
                      (u "fileSize", PInt (st_size st)) ].
Proof.
  unfold universe_summary, os_stat, read_text. split.
  - destruct (w !! _) as [[content st|]|]; [|done..]. simpl.
    destruct (json_loads _) as [[| | | | | |items]|] eqn:Hj; try done. simpl.
    destruct (py_len _) as [n|] eqn:E; [|done]. simpl.
    intros [= <-]. by exists content, st, items, n.
  - intros (content & st & items & n & -> & Hj & Hn & ->). simpl.
    rewrite Hj. simpl. by rewrite Hn.
Qed.

Lemma count_once {A} `{EqDecision A} (l : list A) (x : A) :
  NoDup l → x ∈ l → length (filter (fun y => y = x) l) = 1%nat.
Proof.
  induction 1 as [|y l Hy Hnd IH]; [by intros ?%elem_of_nil|].
  rewrite filter_cons. intros [->|Hx]%elem_of_cons.
  - rewrite decide_True by done. simpl. f_equal.
    apply length_zero_iff_nil, elem_of_nil_inv.
    intros z [-> ?]%list_elem_of_filter. done.
  - rewrite decide_False by (by intros ->). by apply IH.
Qed.

(** C8.  For every state of the saves directory, List
    ([GET /api/universes]) responds 200 with one entry per summarized file,
    in the order of the filenames (code point by code point), no filename
    twice.  The summarized files are the [*.json] entries of the directory
    on which [os.stat], the read, the parse and the field accesses all
    succeed.  An entry holds the filename, [tick] and [generation] as the
    file's [tick] and [maxGeneration] fields (0 if absent) and [population]
    as the length of its [creatures] array (0 if absent).  A file that
    cannot be stat'ed or parsed has no entry, and nothing but the 200
    response is sent. *)
Theorem list_universes_sorted_summaries w :
  do_GET w (u "/api/universes") = Json200 (PList (list_universes w))
  ∧ ∃ files : list str,
      Forall2 (fun entry f => universe_summary w f = Some entry)
        (list_universes w) files
      ∧ StronglySorted str_le files
      ∧ NoDup files
      ∧ (∀ f, f ∈ files ↔
              f ∈ os_listdir w SAVES_DIR
              ∧ endswith f (u ".json") = true
              ∧ is_Some (universe_summary w f))
      ∧ (∀ f entry, universe_summary w f = Some entry →
           ∃ content st items,
             w !! os_path_join SAVES_DIR f = Some (Reg content st)
             ∧ json_loads (universal_newlines content) = Some (PDict items)
             ∧ dict_get entry (u "filename") PNone = Some (PStr f)
             ∧ dict_get entry (u "tick") PNone
               = Some (default (PInt 0) (assoc (u "tick") items))
             ∧ dict_get entry (u "generation") PNone
               = Some (default (PInt 0) (assoc (u "maxGeneration") items))
             ∧ (assoc (u "creatures") items = None →
                dict_get entry (u "population") PNone = Some (PInt 0))
             ∧ (∀ l, assoc (u "creatures") items = Some (PList l) →
                dict_get entry (u "population") PNone
                = Some (PInt (Z.of_nat (length l)))))
      ∧ (∀ f, os_stat w (os_path_join SAVES_DIR f) = None →
              universe_summary w f = None)
      ∧ (∀ f content st,
              w !! os_path_join SAVES_DIR f = Some (Reg content st) →
              json_loads (universal_newlines content) = None →
              universe_summary w f = None)
      ∧ (∀ f content st items,
              w !! os_path_join SAVES_DIR f = Some (Reg content st) →
              json_loads (universal_newlines content) = Some (PDict items) →
              assoc (u "creatures") items = None
              ∨ (∃ l, assoc (u "creatures") items = Some (PList l)) →
              is_Some (universe_summary w f)).
Proof.
  split; [done|].
  exists (filter (summarized w) (sorted (os_listdir w SAVES_DIR))).
  split; [apply summaries_filter|].
  split; [apply StronglySorted_filter, sorted_StronglySorted|].
  split.
  { apply NoDup_filter. rewrite sorted_Permutation. apply NoDup_os_listdir. }
  split.
  { intros f. rewrite list_elem_of_filter, sorted_Permutation.
    unfold summarized. tauto. }
  split.
  { intros f entry (content & st & items & n & Hw & Hj & Hn & ->)%universe_summary_Some.
    exists content, st, items. repeat (split; [done|]). split.
    - intros Hc. rewrite Hc in Hn. by injection Hn as <-.
    - intros l Hc. rewrite Hc in Hn. by injection Hn as <-. }
  split.
  { intros f Hs. unfold universe_summary. by rewrite Hs. }
  split.
  { intros f content st Hw Hj. unfold universe_summary, os_stat, read_text.
    rewrite Hw. simpl. by rewrite Hj. }
  intros f content st items Hw Hj Hc.
  assert (∃ n, py_len (default (PList []) (assoc (u "creatures") items)) = Some n)
    as [n Hn].
  { destruct Hc as [->|[l ->]]; by eexists. }
  eexists. apply universe_summary_Some. by exists content, st, items, n.
Qed.

(** C5.  [My World] and [My_World] both sanitize to [My_World.json]; and
    for any two names that sanitize to the same filename, after saving the
    first and then the second the directory is the original one with that
    one file holding the second payload: the file is listed once. *)
Theorem colliding_names_overwrite :
  (safe_filename (u "My World") = Some (u "My_World.json")
   ∧ safe_filename (u "My_World") = Some (u "My_World.json"))
  ∧ ∀ w n1 n2 d1 d2 st1 st2 fn,
      safe_filename n1 = Some fn →
      safe_filename n2 = Some fn →
      ∃ w1 w2,
        save_universe (Written st1) w n1 d1 = (true, w1)
        ∧ save_universe (Written st2) w1 n2 d2 = (true, w2)
        ∧ w2 = <[os_path_join SAVES_DIR fn := Reg d2 st2]> w
        ∧ w2 !! os_path_join SAVES_DIR fn = Some (Reg d2 st2)
        ∧ length (filter (fun f => f = fn) (os_listdir w2 SAVES_DIR)) = 1%nat.
Proof.
  split; [by split; vm_compute|].
  intros w n1 n2 d1 d2 st1 st2 fn H1 H2.
  destruct (load_after_save w n1 d1 st1 fn H1) as [Hs1 _].
  destruct (load_after_save (<[os_path_join SAVES_DIR fn := Reg d1 st1]> w)
              n2 d2 st2 fn H2) as [Hs2 _].
  rewrite insert_insert_eq in Hs2.
  eexists _, _. split; [done|]. split; [by rewrite Hs2|].
  split; [done|]. split; [apply lookup_insert_eq|].
  apply count_once; [apply NoDup_os_listdir|].
  apply elem_of_os_listdir.
  pose proof (safe_filename_Some _ _ H1) as (stem & -> & Hne & _).
  split; [by destruct stem|]. split; [by apply (safe_filename_no_slash n1)|].
  rewrite <- (safe_filepath n1) by done. rewrite lookup_insert_eq. by eexists.
Qed.

End Listing.

(* ===================================================================== *)
(** ** The name transforms against their specification                    *)
(* ===================================================================== *)

(** C3.  For every name, [safe_filename] computes what the specification
    words: drop every character that is not alphanumeric, underscore,
    whitespace or hyphen; trim whitespace at both ends; turn each remaining
    whitespace run into one underscore; append [.json]; and it yields no
    filename exactly when the part before the extension is empty. *)
Theorem safe_filename_as_specified `{PyRuntime} (name : str) :
  safe_filename name = spec_filename name
  ∧ (safe_filename name = None ↔ spec_stem name = []).
Proof. split; [apply safe_filename_spec|apply safe_filename_None]. Qed.

(** C4.  On the filename [a.json.json], which ends in [.json] and so is
    listed, [name_from_filename] removes both occurrences of [.json] and
    yields [a], where dropping the suffix alone yields [a.json]. *)
Theorem name_from_filename_inner_extension :
  endswith (u "a.json.json") (u ".json") = true
  ∧ name_from_filename (u "a.json.json") = u "a"
  ∧ spec_name_from_filename (u "a.json.json") = u "a.json".
Proof. by vm_compute. Qed.

(* ===================================================================== *)
(** ** Concrete runs                                                      *)
(* ===================================================================== *)

Section Runs.
#[local] Existing Instance demo_runtime.

(** The stored content ends in ["\r\n"]; the body sent ends in ["\n"]. *)
Lemma load_translates_newlines :
  crlf_world !! u "/srv/ecosystem/saves/a.json"
  = Some (Reg [123; 125; 13; 10] (stat_of [123; 125; 13; 10]))
  ∧ do_GET crlf_world (u "/api/universes/a") = Raw200 [123; 125; 10].
Proof. by vm_compute. Qed.

Lemma save_then_load_witness :
  ∃ fn,
    safe_filename (unquote (u "My%20World")) = Some fn
    ∧ do_POST (Written demo_stat) ∅ (api_prefix ++ u "My%20World") (u "{}")
      = (Json200 (PDict [(u "ok", PBool true);
                         (u "name", PStr (unquote (u "My%20World")))]),
         <[os_path_join SAVES_DIR fn := Reg (u "{}") demo_stat]> ∅)
    ∧ do_GET (<[os_path_join SAVES_DIR fn := Reg (u "{}") demo_stat]> ∅)
        (api_prefix ++ u "My%20World")
      = Raw200 (u "{}").
Proof.
  apply (save_then_load ∅ (u "My%20World") (u "{}") demo_stat).
  - vm_compute. repeat constructor.
  - apply Exists_cons_hd. reflexivity.
  - apply (bool_decide_unpack _). vm_compute. exact I.
Defined.

(** A body that is one carriage return comes back as one line feed; a name
    that is one space is refused on save and not found on load. *)
Lemma save_then_load_differs :
  (do_POST (Written (stat_of [13])) ∅ (u "/api/universes/a") [13]
   = (Json200 (PDict [(u "ok", PBool true); (u "name", PStr (u "a"))]),
      {[ u "/srv/ecosystem/saves/a.json" := Reg [13] (stat_of [13]) ]})
   ∧ do_GET {[ u "/srv/ecosystem/saves/a.json" := Reg [13] (stat_of [13]) ]}
       (u "/api/universes/a")
     = Raw200 [10])
  ∧ (requested_name (u "/api/universes/%20") = u " "
     ∧ do_POST (Written demo_stat) ∅ (u "/api/universes/%20") (u "{}")
       = (SendError 400 (Some (u "Failed to save")), ∅)
     ∧ do_GET ∅ (u "/api/universes/%20")
       = SendError 404 (Some (u "Universe not found"))).
Proof. by vm_compute. Qed.

Lemma colliding_names_overwrite_witness :
  ∃ w1 w2,
    save_universe (Written demo_stat) ∅ (u "My World") (u "first") = (true, w1)
    ∧ save_universe (Written demo_stat) w1 (u "My_World") (u "second") = (true, w2)
    ∧ w2 = <[os_path_join SAVES_DIR (u "My_World.json")
             := Reg (u "second") demo_stat]> ∅
    ∧ w2 !! os_path_join SAVES_DIR (u "My_World.json")
      = Some (Reg (u "second") demo_stat)
    ∧ length (filter (fun f => f = u "My_World.json") (os_listdir w2 SAVES_DIR))
      = 1%nat.
Proof.
  apply (proj2 colliding_names_overwrite ∅ (u "My World") (u "My_World"));
    vm_compute; reflexivity.
Defined.


(** The listing of [mixed_world]: [a.json] then [b.json], with populations
    0 and 2; the malformed file, the dangling link and the text file are
    left out. *)
Lemma list_universes_sorted_summaries_witness :
  do_GET mixed_world (u "/api/universes")
  = Json200 (PList (list_universes mixed_world))
  ∧ ((fun e => dict_get e (u "filename") PNone) <$> list_universes mixed_world)
    = [Some (PStr (u "a.json")); Some (PStr (u "b.json"))]
  ∧ ((fun e => dict_get e (u "population") PNone) <$> list_universes mixed_world)
    = [Some (PInt 0); Some (PInt 2)].
Proof.
  split; [exact (proj1 (list_universes_sorted_summaries mixed_world))|].
  split; vm_compute; reflexivity.
Defined.

End Runs.

(* ===================================================================== *)
(** ** Logging and what it does to the answers                            *)
(* ===================================================================== *)

Section LoggingFacts.
Implicit Types (s t hay needle line : str) (c : N).

Lemma startswith_iff s t : startswith s t = true ↔ ∃ r, s = t ++ r.
Proof.
  split; [apply startswith_inv|]. intros [r ->]. apply startswith_app.
Qed.

(** [str_contains] finds exactly the substrings. *)
Lemma str_contains_iff hay needle :
  str_contains hay needle = true ↔ ∃ a b, hay = a ++ needle ++ b.
Proof.
  induction hay as [|c hay IH].
  - simpl. rewrite orb_false_r, startswith_iff. split.
    + intros [r Hr]. by exists [], r.
    + intros (a & b & Hab). symmetry in Hab.
      apply app_eq_nil in Hab as [-> [-> ->]%app_eq_nil]. by exists [].
  - cbn [str_contains]. rewrite orb_true_iff, startswith_iff, IH. split.
    + intros [[r Hr]|(a & b & ->)]; [by exists [], r|by exists (c :: a), b].
    + intros ([|d a] & b & Hab); [left; by exists b|right].
      injection Hab as -> ->. by exists a, b.
Qed.

(** X15.  The hook logs a call whose first argument is a string exactly when that
    string contains [/api/], and suppresses it otherwise; a call without
    arguments is suppressed; the request line of every request under
    [/api/universes/] is logged. *)
Theorem log_message_api_lines format line rest :
  (log_message format (PStr line :: rest) = Logged
   ↔ ∃ a b, line = a ++ u "/api/" ++ b)
  ∧ (log_message format (PStr line :: rest) = Suppressed
     ↔ ¬ ∃ a b, line = a ++ u "/api/" ++ b)
  ∧ log_message format [] = Suppressed
  ∧ (∀ method p version,
       log_request_200 (method ++ u " " ++ api_prefix ++ p ++ u " " ++ version)
       = Logged).
Proof.
  unfold log_request_200, log_message. cbn [py_contains].
  pose proof (str_contains_iff line (u "/api/")) as Hc.
  split; [|split; [|split; [done|]]].
  - destruct (str_contains line _); [by rewrite <- Hc|].
    split; [done|]. intros E. by apply Hc in E.
  - destruct (str_contains line _).
    + split; [done|]. intros []. by apply Hc.
    + split; [|done]. intros _ E. by apply Hc in E.
  - intros method p version.
    assert (str_contains (method ++ u " " ++ api_prefix ++ p ++ u " " ++ version)
              (u "/api/") = true) as ->; [|done].
    apply str_contains_iff. exists (method ++ u " "), (u "universes/" ++ p ++ u " " ++ version).
    by rewrite <- !app_assoc.
Qed.

(** Whatever the request line, an answer is lost to an exception exactly
    when it is an error answer: [send_error] passes the integer status to
    the hook, and [in] on an integer raises. *)
Lemma deliver_raises line r :
  deliver line r = HandlerRaises ↔ ∃ code message, r = SendError code message.
Proof.
  destruct r as [body|payload|code message|]; simpl.
  - unfold log_request_200, log_message. cbn [py_contains].
    destruct (str_contains _ _); split; try done; by intros (? & ? & ?).
  - unfold log_request_200, log_message. cbn [py_contains].
    destruct (str_contains _ _); split; try done; by intros (? & ? & ?).
  - split; [by eauto|done].
  - split; [done|by intros (? & ? & ?)].
Qed.

End LoggingFacts.

Section HandlerLogging.
Context `{PyRuntime}.
Implicit Types (p name body line : str) (w : world).

(** X16.  With the logging hook in place, a request under [/api/universes/] that
    the handler decides to refuse is never answered: Load of a name that
    does not sanitize or has no file, a Save that fails and a Delete that
    finds nothing all end in the hook's [TypeError] instead of a 404 or 400;
    the same requests, when they succeed, are answered. *)
Theorem refused_requests_raise line io w p body :
  (deliver line (do_GET w (api_prefix ++ p)) = HandlerRaises
   ↔ load_universe w (unquote p) = None)
  ∧ (deliver line (do_POST io w (api_prefix ++ p) body).1 = HandlerRaises
     ↔ (save_universe io w (unquote p) body).1 = false)
  ∧ (deliver line (do_DELETE w (api_prefix ++ p)).1 = HandlerRaises
     ↔ (delete_universe w (unquote p)).1 = false).
Proof.
  rewrite !deliver_raises, do_GET_api, do_POST_api, do_DELETE_api.
  split; [|split].
  - destruct (load_universe w (unquote p)); split; try done; [|by eauto].
    by intros (? & ? & ?).
  - destruct (save_universe io w (unquote p) body) as [[] w']; simpl;
      split; try done; [|by eauto]. by intros (? & ? & ?).
  - destruct (delete_universe w (unquote p)) as [[] w']; simpl;
      split; try done; [|by eauto]. by intros (? & ? & ?).
Qed.

End HandlerLogging.

(* ===================================================================== *)
(** ** More on sanitization                                               *)
(* ===================================================================== *)

Section SanitizeFacts.
Context `{PyRuntime}.
Implicit Types (s t name stem fn : str) (c : N) (ws : list str).

Lemma words_lead_spaces s t :
  Forall (fun c => is_space c = true) s → words (s ++ t) = words t.
Proof.
  induction 1 as [|c s Hc _ IH]; [done|]. simpl. by rewrite words_space.
Qed.

Lemma words_snoc_space t c : is_space c = true → words (t ++ [c]) = words t.
Proof.
  intros Hc. induction t as [|d t IH]; [simpl; by rewrite words_space|].
  simpl. destruct (is_space d) eqn:Hd.
  - by rewrite !words_space.
  - rewrite !words_nonspace by done.
    destruct t as [|e t]; simpl.
    + rewrite Hc. by rewrite words_space.
    + simpl in IH. by rewrite IH.
Qed.

Lemma words_trail_spaces t s :
  Forall (fun c => is_space c = true) s → words (t ++ s) = words t.
Proof.
  intros Hs. revert t. induction Hs as [|c s Hc _ IH]; intros t.
  - by rewrite app_nil_r.
  - rewrite (cons_middle c t s), app_assoc, IH. by apply words_snoc_space.
Qed.

Lemma take_while_spaces s : Forall (fun c => is_space c = true) (take_while is_space s).
Proof.
  induction s as [|c s IH]; simpl; [constructor|].
  destruct (is_space c) eqn:Hc; by constructor.
Qed.

Lemma words_drop_spaces s : words (drop_while is_space s) = words s.
Proof.
  rewrite (take_drop_while is_space s) at 2.
  symmetry. apply words_lead_spaces, take_while_spaces.
Qed.

(** Trimming does not change the words. *)
Lemma words_trim s : words (trim s) = words s.
Proof.
  unfold trim. rewrite <- (words_drop_spaces s).
  set (t := drop_while is_space s).
  rewrite <- (rev_involutive t) at 2.
  rewrite (take_drop_while is_space (rev t)) at 2.
  rewrite rev_app_distr. symmetry. apply words_trail_spaces.
  apply Forall_forall. intros c Hc.
  apply list_elem_of_In, in_rev, list_elem_of_In in Hc.
  revert c Hc. apply Forall_forall, take_while_spaces.
Qed.

(** The stem is the words of the allowed characters, joined by
    underscores. *)
Lemma spec_stem_words name :
  spec_stem name = join (u "_") (words (filter (fun c => allowed c = true) name)).
Proof. unfold spec_stem, collapse. by rewrite words_trim. Qed.

Lemma safe_filename_words n1 n2 :
  words (filter (fun c => allowed c = true) n1)
  = words (filter (fun c => allowed c = true) n2) →
  safe_filename n1 = safe_filename n2.
Proof.
  intros E. rewrite !safe_filename_spec. unfold spec_filename.
  by rewrite !spec_stem_words, E.
Qed.

Lemma filter_all {A} (P : A → Prop) `{!∀ x, Decision (P x)} (l : list A) :
  Forall P l → filter P l = l.
Proof.
  induction 1 as [|x l Hx _ IH]; [done|].
  by rewrite filter_cons, decide_True, IH.
Qed.

Lemma filter_none {A} (P : A → Prop) `{!∀ x, Decision (P x)} (l : list A) :
  Forall (fun x => ¬ P x) l → filter P l = [].
Proof.
  induction 1 as [|x l Hx _ IH]; [done|].
  by rewrite filter_cons, decide_False.
Qed.

(** One word. *)
Lemma words_word s :
  s ≠ [] → Forall (fun c => is_space c = false) s → words s = [s].
Proof.
  intros Hne Hs. induction Hs as [|c s Hc Hs IH]; [done|].
  rewrite words_nonspace by done. destruct Hs as [|d s Hd Hs]; [done|].
  rewrite Hd. by rewrite IH.
Qed.

Lemma words_word_space s c t :
  s ≠ [] → Forall (fun c => is_space c = false) s → is_space c = true →
  words (s ++ c :: t) = s :: words t.
Proof.
  intros Hne Hs Hc. induction Hs as [|d s Hd Hs IH]; [done|].
  simpl. rewrite words_nonspace by done.
  destruct Hs as [|e s He Hs]; simpl.
  - rewrite Hc. by rewrite words_space.
  - rewrite He. simpl in IH. by rewrite IH.
Qed.

(** A name of allowed characters without whitespace is its own stem. *)
Lemma safe_filename_clean name :
  name ≠ [] →
  Forall (fun c => allowed c = true ∧ is_space c = false) name →
  safe_filename name = Some (name ++ u ".json").
Proof.
  intros Hne Hall.
  rewrite safe_filename_spec. unfold spec_filename.
  rewrite spec_stem_words, filter_all by (eapply Forall_impl; [done|]; by intros ? []).
  rewrite words_word; [|done|eapply Forall_impl; [done|]; by intros ? []].
  simpl. by rewrite bool_decide_eq_false_2.
Qed.

(** The characters of a stem are allowed and no whitespace. *)
Lemma safe_filename_stem_chars name fn :
  safe_filename name = Some fn →
  ∃ stem, fn = stem ++ u ".json" ∧ stem ≠ []
          ∧ Forall (fun c => allowed c = true ∧ is_space c = false) stem.
Proof.
  unfold safe_filename.
  destruct (re_sub (Plus Space) _ _) as [|c0 stem] eqn:E; [done|].
  intros [= <-]. exists (c0 :: stem). split; [done|]. split; [done|].
  rewrite <- E. apply Forall_forall. intros c Hc.
  apply sub_from_spaces_chars in Hc as [->|[Hc Hs]]; [by split|].
  split; [|done].
  rewrite strip_trim in Hc. apply trim_subseteq in Hc.
  rewrite re_sub_negset in Hc. apply list_elem_of_filter in Hc as [Hc _].
  by rewrite allowed_items in Hc.
Qed.

(** X1.  Sanitizing a stem again gives the same filename; sanitizing the
    filename, extension included, gives another one, because the full stop
    goes. *)
Theorem safe_filename_again name fn :
  safe_filename name = Some fn →
  ∃ stem, fn = stem ++ u ".json"
          ∧ safe_filename stem = Some fn
          ∧ safe_filename fn = Some (stem ++ u "json.json").
Proof.
  intros (stem & -> & Hne & Hstem)%safe_filename_stem_chars.
  exists stem. split; [done|]. split; [by apply safe_filename_clean|].
  rewrite (safe_filename_words _ (stem ++ u "json")).
  - rewrite safe_filename_clean; [by rewrite <- app_assoc|by destruct stem|].
    apply Forall_app. split; [done|]. by repeat constructor.
  - f_equal. rewrite !filter_app.
    by rewrite (filter_all _ (u "json")) by (by repeat constructor).
Qed.

(** X2.  Characters that are not allowed, and whitespace around the name, make
    no difference to the filename. *)
Theorem safe_filename_ignores name before after :
  Forall (fun c => is_space c = true) before →
  Forall (fun c => is_space c = true) after →
  safe_filename (before ++ name ++ after) = safe_filename name
  ∧ safe_filename (filter (fun c => allowed c = true) name) = safe_filename name.
Proof.
  intros Hb Ha. split; apply safe_filename_words.
  - rewrite !filter_app. rewrite words_lead_spaces, words_trail_spaces; [done|..].
    + apply Forall_forall. intros c [_ Hc]%list_elem_of_filter.
      rewrite Forall_forall in Ha. by apply Ha.
    + apply Forall_forall. intros c [_ Hc]%list_elem_of_filter.
      rewrite Forall_forall in Hb. by apply Hb.
  - f_equal. apply filter_all, Forall_forall. by intros c [? _]%list_elem_of_filter.
Qed.

(** X3.  Two names collide as soon as their allowed characters fall into the same
    words: the amount and kind of whitespace between the words is lost. *)
Theorem same_words_same_filename n1 n2 :
  words (filter (fun c => allowed c = true) n1)
  = words (filter (fun c => allowed c = true) n2) →
  safe_filename n1 = safe_filename n2
  ∧ (∀ io w data, (save_universe io w n1 data) = (save_universe io w n2 data))
  ∧ (∀ w, load_universe w n1 = load_universe w n2)
  ∧ (∀ w, delete_universe w n1 = delete_universe w n2).
Proof.
  intros E%safe_filename_words.
  unfold save_universe, load_universe, delete_universe. by rewrite E.
Qed.

End SanitizeFacts.

(* ===================================================================== *)
(** ** Display names, lengths, line ends                                  *)
(* ===================================================================== *)

Section DisplayFacts.
Context `{PyRuntime}.
Implicit Types (s t name stem fn sep : str) (c : N) (ws : list str).

Lemma Forall_join (P : N → Prop) sep ws :
  Forall P sep → Forall (Forall P) ws → Forall P (join sep ws).
Proof.
  intros Hsep. induction 1 as [|x ws Hx Hws IH]; [constructor|].
  simpl. destruct ws; [done|]. by rewrite !Forall_app.
Qed.

Lemma underscore_to_space_id s :
  Forall (fun c => c ≠ 95) s → underscore_to_space <$> s = s.
Proof.
  induction 1 as [|c s Hc _ IH]; [done|]. rewrite fmap_cons, IH.
  unfold underscore_to_space. by apply N.eqb_neq in Hc as ->.
Qed.

Lemma underscore_to_space_join ws :
  Forall (Forall (fun c => c ≠ 95)) ws →
  underscore_to_space <$> join [95] ws = join [32] ws.
Proof.
  induction 1 as [|x ws Hx Hws IH]; [done|]. simpl.
  destruct ws as [|y ws]; [by apply underscore_to_space_id|].
  rewrite fmap_app, fmap_cons, IH. by rewrite underscore_to_space_id.
Qed.

Lemma join_nonempty sep x ws : x ≠ [] → join sep (x :: ws) ≠ [].
Proof. intros Hx E. by apply join_nil_head in E. Qed.

(** Words joined by one whitespace character are found again. *)
Lemma words_join c ws :
  is_space c = true →
  Forall (fun x => x ≠ [] ∧ Forall (fun c => is_space c = false) x) ws →
  words (join [c] ws) = ws.
Proof.
  intros Hc. induction 1 as [|x ws [Hne Hx] Hws IH]; [done|].
  destruct ws as [|y ws]; [simpl; by apply words_word|].
  change (join [c] (x :: y :: ws)) with (x ++ c :: join [c] (y :: ws)).
  rewrite words_word_space by done. by rewrite IH.
Qed.

Lemma display_char_spec c :
  display_char c = true → allowed c = true ∧ is_space c = false ∧ c ≠ 95.
Proof.
  unfold display_char. intros [[? ?%negb_true_iff]%andb_true_iff
    ?%negb_true_iff]%andb_true_iff.
  repeat split; [done..|]. by apply N.eqb_neq.
Qed.

(** X4.  A display name made of words of letters, digits and hyphens with one
    space between them is turned into the words joined by underscores, and
    the listing turns that filename back into the same display name. *)
Theorem display_name_round_trip ws :
  ws ≠ [] →
  Forall (fun x => x ≠ [] ∧ Forall (fun c => display_char c = true) x) ws →
  safe_filename (join (u " ") ws) = Some (join (u "_") ws ++ u ".json")
  ∧ name_from_filename (join (u "_") ws ++ u ".json") = join (u " ") ws.
Proof.
  intros Hne Hws.
  assert (Forall (Forall (fun c => allowed c = true ∧ is_space c = false ∧ c ≠ 95)) ws)
    as Hchars.
  { eapply Forall_impl; [exact Hws|]. intros x [_ Hx].
    eapply Forall_impl; [exact Hx|]. apply display_char_spec. }
  assert (Forall (fun c => allowed c = true) (join (u "_") ws)) as Hunder.
  { apply Forall_join; [by repeat constructor|].
    eapply Forall_impl; [exact Hchars|]. intros x Hx.
    eapply Forall_impl; [exact Hx|]. by intros c (? & _). }
  split.
  - rewrite safe_filename_spec. unfold spec_filename. rewrite spec_stem_words.
    rewrite filter_all.
    + change (u " ") with [32]. rewrite words_join; [|done|].
      * rewrite bool_decide_eq_false_2; [done|].
        destruct ws as [|x ws]; [done|].
        inversion_clear Hws as [|? ? [Hx _] _]. by apply join_nonempty.
      * clear Hunder. induction Hws as [|x ws [Hx _] _ IH]; [constructor|].
        inversion_clear Hchars as [|? ? Hc Hcs]. constructor.
        -- split; [done|]. eapply Forall_impl; [exact Hc|]. by intros c (_ & ? & _).
        -- destruct ws; [constructor|]. by apply IH.
    + apply Forall_join; [by repeat constructor|].
      eapply Forall_impl; [exact Hchars|]. intros x Hx.
      eapply Forall_impl; [exact Hx|]. by intros c (? & _).
  - unfold name_from_filename. rewrite str_replace_extension.
    + change (u "_") with [95]. change (u " ") with [32].
      rewrite str_replace_char. apply underscore_to_space_join.
      eapply Forall_impl; [exact Hchars|]. intros x Hx.
      eapply Forall_impl; [exact Hx|]. by intros c (_ & _ & ?).
    + intros Hdot. rewrite Forall_forall in Hunder. by specialize (Hunder _ Hdot).
Qed.

Lemma sub_from_length pat repl k s :
  (length repl ≤ 1)%nat → (length (sub_from pat repl k s) ≤ length s)%nat.
Proof.
  intros Hr. revert k. induction s as [|c s IH]; intros k; [done|].
  destruct k as [|k]; cbn [sub_from].
  - destruct (match_at pat (c :: s)) as [[|k]|].
    + simpl. pose proof (IH 0%nat). lia.
    + rewrite length_app. simpl. pose proof (IH k). lia.
    + simpl. pose proof (IH 0%nat). lia.
  - simpl. pose proof (IH k). lia.
Qed.

(** X5.  Sanitizing never lengthens a name by more than the five characters of
    the extension. *)
Theorem safe_filename_length name fn :
  safe_filename name = Some fn → (length fn ≤ length name + 5)%nat.
Proof.
  unfold safe_filename.
  remember (re_sub (Plus Space) (u "_")
              (strip (re_sub (NegSet [Word; Space; Lit 45]) [] name))) as stem eqn:E.
  assert (length stem ≤ length name)%nat as Hlen.
  { rewrite E. unfold re_sub.
    etrans; [apply sub_from_length; simpl; lia|].
    unfold strip, slice. rewrite length_take, length_drop.
    pose proof (sub_from_length (NegSet [Word; Space; Lit 45]) [] 0 name).
    simpl in *. lia. }
  destruct stem as [|c0 stem']; [done|]. intros [= <-].
  change (c0 :: stem' ++ u ".json") with ((c0 :: stem') ++ u ".json").
  rewrite length_app. change (length (u ".json")) with 5%nat. lia.
Qed.

(** Reading with universal newlines leaves no carriage return. *)
Lemma universal_newlines_no_cr s :
  Forall (fun c => c ≠ 13) (universal_newlines s).
Proof.
  assert (∀ n s, (length s ≤ n)%nat → Forall (fun c => c ≠ 13) (universal_newlines s))
    as Hn; [|by apply (Hn (length s))].
  clear s. induction n as [|n IH]; intros [|c s] Hs; simpl in *; try constructor; try lia.
  - destruct (c =? 13) eqn:Hc.
    + constructor; [done|]. destruct s as [|d s]; [constructor|].
      destruct (d =? 10); apply IH; simpl in *; lia.
    + constructor; [by apply N.eqb_neq|]. apply IH. lia.
Qed.

(** X6.  Whatever is stored, the body of a Load holds no carriage return. *)
Theorem load_without_carriage_return w path data :
  do_GET w path = Raw200 data → Forall (fun c => c ≠ 13) data.
Proof.
  unfold do_GET. case_bool_decide; [done|].
  destruct (startswith path api_prefix); [|done].
  unfold load_universe, read_text.
  destruct (safe_filename _) as [fn|]; [|done].
  destruct (negb _); [done|].
  destruct (w !! _) as [[content st|]|]; try done.
  intros [= <-]. apply universal_newlines_no_cr.
Qed.

End DisplayFacts.

(* ===================================================================== *)
(** ** How the operations compose                                         *)
(* ===================================================================== *)

Section Composition.
Context `{PyRuntime}.
Implicit Types (s t p q name body f fn : str) (c : N) (w : world).









(** X9.  A second Delete of the same name finds nothing and changes nothing. *)
Theorem delete_twice w name :
  delete_universe (delete_universe w name).2 name
  = (false, (delete_universe w name).2).
Proof.
  unfold delete_universe. destruct (safe_filename name) as [fn|] eqn:Hfn; simpl.
  - destruct (os_path_exists w _) eqn:Hex; simpl.
    + assert (os_path_exists (os_remove w (os_path_join SAVES_DIR fn))
                (os_path_join SAVES_DIR fn) = false) as ->; [|done].
      apply os_path_exists_false. left. apply lookup_delete_eq.
    + by rewrite Hex.
  - done.
Qed.

(** X10.  Saving under a name whose file is not there and deleting it again gives
    the directory back as it was. *)
Theorem save_then_delete w name body st fn :
  safe_filename name = Some fn →
  w !! os_path_join SAVES_DIR fn = None →
  delete_universe (save_universe (Written st) w name body).2 name = (true, w).
Proof.
  intros Hfn Hw. unfold save_universe, delete_universe. rewrite Hfn. simpl.
  assert (os_path_exists (<[os_path_join SAVES_DIR fn := Reg body st]> w)
            (os_path_join SAVES_DIR fn) = true) as ->.
  { apply os_path_exists_true. exists body, st. apply lookup_insert_eq. }
  unfold os_remove. by rewrite delete_insert_eq, delete_id.
Qed.

End Composition.

(* ===================================================================== *)
(** ** The listing after a save or a delete                               *)
(* ===================================================================== *)

Section ListingFacts.
Context `{PyRuntime}.
Implicit Types (s t p q name body f fn : str) (c : N) (w : world).
#[local] Existing Instances str_le_total str_le_trans str_le_antisymm.

(** Two orders of the same names sort to the same list. *)
Lemma sorted_unique (l1 l2 : list str) : l1 ≡ₚ l2 → sorted l1 = sorted l2.
Proof.
  intros E. apply (StronglySorted_unique str_le);
    [apply sorted_StronglySorted..|].
  by rewrite !sorted_Permutation.
Qed.


Lemma elem_of_summaries w (files : list str) entry :
  entry ∈ summaries w files ↔
  ∃ f, f ∈ files ∧ endswith f (u ".json") = true
       ∧ universe_summary w f = Some entry.
Proof.
  induction files as [|f files IH]; simpl.
  - split; [by intros ?%elem_of_nil|by intros (? & ?%elem_of_nil & _)].
  - destruct (endswith f _) eqn:He; simpl.
    + destruct (universe_summary w f) as [e|] eqn:Hs.
      * rewrite elem_of_cons, IH. split.
        -- intros [->|(g & ? & ? & ?)]; [exists f|exists g]; by rewrite ?elem_of_cons; auto.
        -- intros (g & [->|?]%elem_of_cons & ? & Hg); [left; congruence|right; eauto].
      * rewrite IH. split.
        -- intros (g & ? & ? & ?). exists g. by rewrite elem_of_cons; auto.
        -- intros (g & [->|?]%elem_of_cons & ? & Hg); [congruence|eauto].
    + rewrite IH. split.
      * intros (g & ? & ? & ?). exists g. by rewrite elem_of_cons; auto.
      * intros (g & [->|?]%elem_of_cons & ? & Hg); [congruence|eauto].
Qed.

Lemma elem_of_list_universes w entry :
  entry ∈ list_universes w ↔
  ∃ f, f ∈ os_listdir w SAVES_DIR ∧ endswith f (u ".json") = true
       ∧ universe_summary w f = Some entry.
Proof.
  unfold list_universes. rewrite elem_of_summaries.
  by setoid_rewrite sorted_Permutation.
Qed.



(** X13.  The listing is the same whatever order the operating system reports the
    directory in. *)
Theorem listing_ignores_directory_order w (names : list str) :
  names ≡ₚ os_listdir w SAVES_DIR →
  summaries w (sorted names) = list_universes w.
Proof. intros E. unfold list_universes. by rewrite (sorted_unique _ _ E). Qed.

(** X11.  After a Save that goes through, of a body that parses to an object whose
    [creatures] (if any) has a length, the listing holds the entry of the
    saved file, with that length as its population. *)
Theorem saved_universe_is_listed w name body st fn items n :
  safe_filename name = Some fn →
  json_loads (universal_newlines body) = Some (PDict items) →
  py_len (default (PList []) (assoc (u "creatures") items)) = Some n →
  PDict [ (u "name", PStr (name_from_filename fn));
          (u "filename", PStr fn);
          (u "tick", default (PInt 0) (assoc (u "tick") items));
          (u "generation", default (PInt 0) (assoc (u "maxGeneration") items));
          (u "population", PInt (Z.of_nat n));
          (u "savedAt", PInt (saved_at_ms st));
          (u "fileSize", PInt (st_size st)) ]
  ∈ list_universes (save_universe (Written st) w name body).2.
Proof.
  intros Hfn Hj Hn. unfold save_universe. rewrite Hfn. simpl.
  apply elem_of_list_universes. exists fn.
  pose proof (safe_filename_Some _ _ Hfn) as (stem & Hstem & Hne & _).
  split; [|split].
  - apply elem_of_os_listdir. split; [subst fn; by destruct stem|].
    split; [by apply (safe_filename_no_slash name)|].
    rewrite <- (safe_filepath name) by done. rewrite lookup_insert_eq. by eexists.
  - subst fn. unfold endswith. by rewrite rev_app_distr, startswith_app.
  - apply universe_summary_Some. exists body, st, items, n.
    by rewrite lookup_insert_eq.
Qed.





(** X14.  A stored file that parses is left out of the listing exactly when its
    top-level value is no object or its [creatures] field has no length
    (a number, [null], [true]). *)
Theorem parsed_but_not_listed w f content st v :
  w !! os_path_join SAVES_DIR f = Some (Reg content st) →
  json_loads (universal_newlines content) = Some v →
  universe_summary w f = None
  ↔ (∀ items, v ≠ PDict items)
    ∨ ∃ items, v = PDict items
               ∧ py_len (default (PList []) (assoc (u "creatures") items)) = None.
Proof.
  intros Hw Hj. unfold universe_summary, os_stat, read_text.
  rewrite Hw. simpl. rewrite Hj. simpl.
  destruct v as [| | | | | |items]; simpl;
    try (split; [by left|done]).
  destruct (py_len _) as [n|] eqn:Hn; simpl.
  - split; [done|]. intros [Hno|(items' & [= <-] & Hn')]; [by destruct (Hno items)|congruence].
  - split; [|done]. intros _. right. by exists items.
Qed.

End ListingFacts.

(* ===================================================================== *)
(** ** More concrete runs                                                 *)
(* ===================================================================== *)

Section MoreRuns.
#[local] Existing Instance demo_runtime.

Lemma safe_filename_again_witness :
  ∃ stem, u "My_World.json" = stem ++ u ".json"
          ∧ safe_filename stem = Some (u "My_World.json")
          ∧ safe_filename (u "My_World.json") = Some (stem ++ u "json.json").
Proof.
  apply (safe_filename_again (u "My World")). vm_compute. reflexivity.
Defined.

Lemma safe_filename_ignores_witness :
  safe_filename (u "  " ++ u "My: World!" ++ u " ") = safe_filename (u "My: World!")
  ∧ safe_filename (filter (fun c => allowed c = true) (u "My: World!"))
    = safe_filename (u "My: World!").
Proof.
  apply (safe_filename_ignores (u "My: World!") (u "  ") (u " "));
    repeat constructor.
Defined.

Lemma same_words_same_filename_witness :
  safe_filename (u "My   World") = safe_filename (u " My World?")
  ∧ (∀ io w data, save_universe io w (u "My   World") data
                  = save_universe io w (u " My World?") data)
  ∧ (∀ w, load_universe w (u "My   World") = load_universe w (u " My World?"))
  ∧ (∀ w, delete_universe w (u "My   World") = delete_universe w (u " My World?")).
Proof.
  apply (same_words_same_filename (u "My   World") (u " My World?")).
  vm_compute. reflexivity.
Defined.

Lemma display_name_round_trip_witness :
  safe_filename (join (u " ") [u "My"; u "World-2"])
  = Some (join (u "_") [u "My"; u "World-2"] ++ u ".json")
  ∧ name_from_filename (join (u "_") [u "My"; u "World-2"] ++ u ".json")
    = join (u " ") [u "My"; u "World-2"].
Proof.
  apply (display_name_round_trip [u "My"; u "World-2"]); [discriminate|].
  repeat (constructor; [split; [discriminate|repeat constructor]|]).
  constructor.
Defined.

Lemma safe_filename_length_witness :
  (length (u "etcpasswd.json") ≤ length (u "../../etc/passwd") + 5)%nat.
Proof.
  apply (safe_filename_length (u "../../etc/passwd") (u "etcpasswd.json")).
  vm_compute. reflexivity.
Defined.

Lemma load_without_carriage_return_witness :
  Forall (fun c => c ≠ 13) [123; 125; 10].
Proof.
  apply (load_without_carriage_return crlf_world (u "/api/universes/a")).
  vm_compute. reflexivity.
Defined.


Lemma save_then_delete_witness :
  delete_universe (save_universe (Written demo_stat) demo_world (u "b") (u "{}")).2
    (u "b")
  = (true, demo_world).
Proof.
  apply (save_then_delete demo_world (u "b") (u "{}") demo_stat (u "b.json"));
    vm_compute; reflexivity.
Defined.

Lemma listing_ignores_directory_order_witness :
  summaries mixed_world (sorted (rev (os_listdir mixed_world SAVES_DIR)))
  = list_universes mixed_world.
Proof.
  apply (listing_ignores_directory_order mixed_world).
  symmetry. apply Permutation_rev.
Defined.

Lemma saved_universe_is_listed_witness :
  PDict [ (u "name", PStr (name_from_filename (u "My_World.json")));
          (u "filename", PStr (u "My_World.json"));
          (u "tick", PInt 0);
          (u "generation", PInt 0);
          (u "population", PInt 2);
          (u "savedAt", PInt (saved_at_ms (stat_of two_creatures)));
          (u "fileSize", PInt (st_size (stat_of two_creatures))) ]
  ∈ list_universes
      (save_universe (Written (stat_of two_creatures)) demo_world
         (u "My World") two_creatures).2.
Proof.
  apply (saved_universe_is_listed demo_world (u "My World") two_creatures
           (stat_of two_creatures) (u "My_World.json")
           [(u "creatures", PList [PDict []; PDict []])] 2);
    vm_compute; reflexivity.
Defined.


End MoreRuns.

Lemma parsed_but_not_listed_witness :
  @universe_summary array_runtime array_world (u "list.json") = None
  ↔ (∀ items, PList [] ≠ PDict items)
    ∨ ∃ items, PList [] = PDict items
               ∧ py_len (default (PList []) (assoc (u "creatures") items)) = None.
Proof.
  apply (@parsed_but_not_listed array_runtime array_world (u "list.json")
           (u "[]") (stat_of (u "[]")) (PList []));
    vm_compute; reflexivity.
Defined.

(* ===================================================================== *)
(** ** Refused requests and links, run                                    *)
(* ===================================================================== *)

Section RefusedRuns.
#[local] Existing Instance demo_runtime.

(** C1.  A Load of a name that has no file: the handler calls
    [send_error(404, ...)], the logging hook raises on the integer status,
    and no 404 is sent. *)
Lemma load_of_missing_universe_raises :
  do_GET ∅ (u "/api/universes/nosuch")
  = SendError 404 (Some (u "Universe not found"))
  ∧ log_error_call 404 (u "Universe not found") = LogRaises
  ∧ deliver (u "GET /api/universes/nosuch HTTP/1.1")
      (do_GET ∅ (u "/api/universes/nosuch"))
    = HandlerRaises.
Proof. by vm_compute. Qed.

(** C6.  A Save whose write raises: the handler calls
    [send_error(400, ...)], the logging hook raises, and no 400 is sent. *)
Lemma save_with_failed_write_raises :
  do_POST OpenRaises ∅ (u "/api/universes/a") (u "{}")
  = (SendError 400 (Some (u "Failed to save")), ∅)
  ∧ log_error_call 400 (u "Failed to save") = LogRaises
  ∧ deliver (u "POST /api/universes/a HTTP/1.1")
      (do_POST OpenRaises ∅ (u "/api/universes/a") (u "{}")).1
    = HandlerRaises.
Proof. by vm_compute. Qed.

(** C7.  A Delete of a name that has no file, and a Load after a Delete
    that removed the file: both end in [send_error(404, ...)], the logging
    hook raises, and no 404 is sent. *)
Lemma delete_of_missing_universe_raises :
  (do_DELETE ∅ (u "/api/universes/nosuch")
   = (SendError 404 (Some (u "Universe not found")), ∅)
   ∧ deliver (u "DELETE /api/universes/nosuch HTTP/1.1")
       (do_DELETE ∅ (u "/api/universes/nosuch")).1
     = HandlerRaises)
  ∧ (do_DELETE demo_world (u "/api/universes/a")
     = (Json200 (PDict [(u "ok", PBool true)]), ∅)
     ∧ deliver (u "GET /api/universes/a HTTP/1.1")
         (do_GET ∅ (u "/api/universes/a"))
       = HandlerRaises).
Proof. by vm_compute. Qed.

(** C9.  A Save under a name of punctuation only: the directory stays as it
    was, the handler calls [send_error(400, ...)], the logging hook raises,
    and no 400 is sent. *)
Lemma save_of_unsanitizable_name_raises :
  safe_filename (u "!!!") = None
  ∧ do_POST (Written demo_stat) demo_world (u "/api/universes/!!!") (u "{}")
    = (SendError 400 (Some (u "Failed to save")), demo_world)
  ∧ deliver (u "POST /api/universes/!!! HTTP/1.1")
      (do_POST (Written demo_stat) demo_world (u "/api/universes/!!!") (u "{}")).1
    = HandlerRaises.
Proof. by vm_compute. Qed.


End RefusedRuns.
